(** * serial: a serial-port session with a shared receive buffer

    Shallow embedding of [serial.go] (package [serial]).

    A [SerialPort] owns a transport handle ([io.ReadWriteCloser]), a
    [bytes.Buffer] filled by a background reader, an end-of-line byte and
    the [portIsOpen] flag.  Every method is a function in a small monad
    that threads the [SerialPort] value, records the effects the method
    has outside the struct (transport calls, goroutines started, log
    lines, sleeps) as a list of events, and can end in a Go panic.

    Go [string] values that carry device data are [list byte]; texts that
    configure the session (port name, parity, file path, pattern) are
    [string].  [len] and slice indices are [nat]: they are never negative
    and stay far below the 63 bits of Go's [int]. *)

From Stdlib Require Import Ascii String Strings.Byte Bool Arith ZArith Lia List.
Import ListNotations.

Set Implicit Arguments.

(* ------------------------------------------------------------------ *)
(** ** Values shared by the package *)

(** [time.Duration]: a count of nanoseconds. *)
Definition Duration := Z.

(** The [error] values the package returns.  The texts are those of the
    source; errors built outside the package (transport, [os], [ioutil])
    are kept by their message. *)
Inductive error : Type :=
| ErrNotOpen                        (* Serial port is not open *)
| ErrAlreadyOpen (name : string)    (* <name> is already open *)
| ErrInvalidParity                  (* Invalid parity *)
| ErrInvalidTimeout                 (* Invalid time out params *)
| ErrInvalidStopBits                (* Invalid stop bits *)
| ErrUnableToOpen (name : string) (cause : error)
                                    (* Unable to open port <name> - <cause> *)
| ErrTimeoutExpired                 (* Timeout expired *)
| io_EOF                            (* io.EOF *)
| ErrExternal (msg : string).

(** End of line character, newline is used by default. *)
Definition EOL_DEFAULT : byte := x0a.
Definition CR : byte := x0d.
Definition LF : byte := x0a.

Definition DefaultSize : byte := x08.

Definition StopBits := byte.
Definition Parity := byte.

Definition Stop1 : StopBits := x01.
Definition Stop1Half : StopBits := x0f.
Definition Stop2 : StopBits := x02.

Definition ParityNone : Parity := "N"%byte.
Definition ParityOdd : Parity := "O"%byte.
Definition ParityEven : Parity := "E"%byte.
Definition ParityMark : Parity := "M"%byte.
Definition ParitySpace : Parity := "S"%byte.

Record Config : Type := mkConfig {
  Name : string;
  Baud : Z;
  ReadTimeout : Duration;
  Size : byte;
  Parity_ : Parity;
  StopBits_ : StopBits
}.

(** [var serialCfg Config]: every field at its zero value. *)
Definition zeroConfig : Config :=
  mkConfig EmptyString 0%Z 0%Z x00 x00 x00.

(* ------------------------------------------------------------------ *)
(** ** [bytes.Buffer]

    The buffer is known to [serial.go] through [NewBuffer], [Reset],
    [Len], [Write], [ReadByte] and [ReadString] only, and these depend on
    the unread part [buf[off:]] alone; that part is the model. *)

Module Buffer.

Record t : Type := mk { unread : list byte }.

Definition NewBuffer (b : list byte) : t := mk b.

Definition Len (b : t) : nat := length (unread b).

Definition Reset (_ : t) : t := mk [].

(** [Write] appends and never fails. *)
Definition Write (b : t) (p : list byte) : t := mk (unread b ++ p).

(** [ReadByte]: the next byte, or [io.EOF] from an empty buffer. *)
Definition ReadByte (b : t) : (byte * option error) * t :=
  match unread b with
  | [] => ((x00, Some io_EOF), Reset b)
  | c :: rest => ((c, None), mk rest)
  end.

(** [bytes.IndexByte]; [None] stands for Go's -1. *)
Fixpoint IndexByte (s : list byte) (c : byte) : option nat :=
  match s with
  | [] => None
  | x :: s' => if Byte.eqb x c then Some 0 else option_map S (IndexByte s' c)
  end.

(** [ReadString] (through [readSlice]): up to and including the first
    [delim]; without one, all that is left together with [io.EOF].  The
    bytes returned are consumed in both cases. *)
Definition ReadString (b : t) (delim : byte) : (list byte * option error) * t :=
  match IndexByte (unread b) delim with
  | Some i => ((firstn (S i) (unread b), None), mk (skipn (S i) (unread b)))
  | None => ((unread b, Some io_EOF), mk [])
  end.

End Buffer.

(* ------------------------------------------------------------------ *)
(** ** What the package calls outside itself *)

(** [io.ReadWriteCloser], the transport handle.  A handle of type [T]
    carries the device's state; each call returns the handle after it.
    [rwc_Read t n] reads into a slice of length [n] and gives the bytes it
    stored there. *)
Class ReadWriteCloser (T : Type) : Type := {
  rwc_Read : T -> nat -> (list byte * option error) * T;
  rwc_Write : T -> list byte -> (nat * option error) * T;
  rwc_Close : T -> option error * T
}.

(** The platform: [openPort] (one file per operating system, none of
    them in [serial.go]), [time.ParseDuration], [ioutil.ReadFile]. *)
Class Platform (T : Type) : Type := {
  openPort : string -> Z -> byte -> Parity -> StopBits -> Duration -> T + error;
  ParseDuration : string -> Duration + error;
  ReadFile : string -> list byte + error
}.

(** Package [regexp]: [Compile], and [FindAllString] of a compiled
    expression with [n = -1]. *)
Class RegexpEngine : Type := {
  Regexp : Type;
  Compile : string -> Regexp + error;
  FindAllString : Regexp -> list byte -> list (list byte)
}.

(* ------------------------------------------------------------------ *)
(** ** The session *)

(** A channel value as [Open] and [Close] use it. *)
Inductive chan : Type := ChanNil | ChanOpen | ChanClosed.

Record Logger : Type := mkLogger { prefix : string }.

(** The struct.  Its fields [closeReqChann] and [closeAckChann] are
    never read or written and are left out; the logger is its prefix,
    its output being among the events. *)
Module SerialPort.

Record t (T : Type) : Type := mk {
  port : option T;          (* nil until the first successful Open *)
  name : string;
  baud : Z;
  eol : byte;
  rxChar : chan;
  buff : Buffer.t;          (* set by New, never reassigned *)
  logger : Logger;
  portIsOpen : bool;
  Verbose : bool
}.

(** Assignments to one field. *)
Definition set_port T (v : option T) (sp : t T) : t T :=
  mk v (name sp) (baud sp) (eol sp) (rxChar sp) (buff sp)
    (logger sp) (portIsOpen sp) (Verbose sp).
Definition set_name T (v : string) (sp : t T) : t T :=
  mk (port sp) v (baud sp) (eol sp) (rxChar sp) (buff sp)
    (logger sp) (portIsOpen sp) (Verbose sp).
Definition set_baud T (v : Z) (sp : t T) : t T :=
  mk (port sp) (name sp) v (eol sp) (rxChar sp) (buff sp)
    (logger sp) (portIsOpen sp) (Verbose sp).
Definition set_eol T (v : byte) (sp : t T) : t T :=
  mk (port sp) (name sp) (baud sp) v (rxChar sp) (buff sp)
    (logger sp) (portIsOpen sp) (Verbose sp).
Definition set_rxChar T (v : chan) (sp : t T) : t T :=
  mk (port sp) (name sp) (baud sp) (eol sp) v (buff sp)
    (logger sp) (portIsOpen sp) (Verbose sp).
Definition set_buff T (v : Buffer.t) (sp : t T) : t T :=
  mk (port sp) (name sp) (baud sp) (eol sp) (rxChar sp) v
    (logger sp) (portIsOpen sp) (Verbose sp).
Definition set_logger T (v : Logger) (sp : t T) : t T :=
  mk (port sp) (name sp) (baud sp) (eol sp) (rxChar sp) (buff sp)
    v (portIsOpen sp) (Verbose sp).
Definition set_portIsOpen T (v : bool) (sp : t T) : t T :=
  mk (port sp) (name sp) (baud sp) (eol sp) (rxChar sp) (buff sp)
    (logger sp) v (Verbose sp).

End SerialPort.

(** Effects outside the struct, in the order they happen. *)
Inductive goroutine : Type := GoReadSerialPort | GoProcessSerialPort | GoWaitPoller.

Inductive arg : Type := ArgS (s : string) | ArgB (b : list byte) | ArgI (i : Z).

Inductive Event : Type :=
| EvOpenPort (cfg : Config)
| EvPortRead (data : list byte)
| EvPortWrite (data : list byte)
| EvPortClose
| EvBuffReset
| EvMakeChan
| EvCloseChan
| EvSend (b : byte)
| EvGo (g : goroutine)
| EvSetPrefix (p : string)
| EvLog (pre format : string) (args : list arg)
| EvSleep (ms : nat).

Inductive panic : Type :=
| NilDereference                 (* method call on the nil transport *)
| SliceOutOfRange
| MustCompilePanic (exp : string)
| CloseOfNilChannel
| CloseOfClosedChannel.

Inductive Res (A : Type) : Type :=
| Ret (a : A)
| Panic (p : panic)
| OutOfFuel.
Arguments Panic {A} p.
Arguments OutOfFuel {A}.

(** Slice expressions [s[lo:]] and [s[lo:hi]]; [None] is the run-time
    panic.  Go checks [hi] against the capacity, which is at least the
    length used here, so a slice that is in range below is in range in
    Go. *)
Definition slice_from (s : list byte) (lo : nat) : option (list byte) :=
  if lo <=? length s then Some (skipn lo s) else None.

Definition slice (s : list byte) (lo hi : nat) : option (list byte) :=
  if (lo <=? hi) && (hi <=? length s)
  then Some (firstn (hi - lo) (skipn lo s)) else None.

(** [removeEOL]: the loop appends every byte of [line] that is neither
    carriage return nor newline. *)
Definition removeEOL (line : list byte) : list byte :=
  fold_left
    (fun data b =>
       if Byte.eqb b CR then data
       else if Byte.eqb b LF then data
       else data ++ [b])
    line [].

Section Methods.

Context {T : Type} {RWC : ReadWriteCloser T} {PF : Platform T} {RE : RegexpEngine}.

Definition M (A : Type) : Type :=
  SerialPort.t T -> Res A * SerialPort.t T * list Event.

Definition ret {A} (a : A) : M A := fun sp => (Ret a, sp, []).

(** The events [ev1] of what ran first, put before those of a run. *)
Definition prepend {A} (ev1 : list Event) (x : Res A * SerialPort.t T * list Event)
  : Res A * SerialPort.t T * list Event :=
  let '(r, sp2, ev2) := x in (r, sp2, ev1 ++ ev2).

Definition bind {A B} (m : M A) (k : A -> M B) : M B :=
  fun sp =>
    match m sp with
    | (Ret a, sp1, ev1) => prepend ev1 (k a sp1)
    | (Panic p, sp1, ev1) => (Panic p, sp1, ev1)
    | (OutOfFuel, sp1, ev1) => (OutOfFuel, sp1, ev1)
    end.

Definition get : M (SerialPort.t T) := fun sp => (Ret sp, sp, []).
Definition modify (f : SerialPort.t T -> SerialPort.t T) : M unit :=
  fun sp => (Ret tt, f sp, []).
Definition emit (e : Event) : M unit := fun sp => (Ret tt, sp, [e]).
Definition throw {A} (p : panic) : M A := fun sp => (Panic p, sp, []).
Definition outOfFuel {A} : M A := fun sp => (OutOfFuel, sp, []).

Notation "x <- m ;; k" := (bind m (fun x => k))
  (at level 61, m at next level, right associativity).
Notation "' pat <- m ;; k" := (bind m (fun x => match x with pat => k end))
  (at level 61, pat pattern, m at next level, right associativity).
Notation "m ;;; k" := (bind m (fun _ => k))
  (at level 61, right associativity).

(** A slice expression inside a method. *)
Definition index {A} (o : option A) : M A :=
  match o with
  | Some v => ret v
  | None => throw SliceOutOfRange
  end.

(** Calls on [sp.port]; the interface value is nil before the first
    successful [Open], and a method call on it panics. *)
Definition port_Write (data : list byte) : M (nat * option error) :=
  fun sp =>
    match SerialPort.port sp with
    | None => (Panic NilDereference, sp, [])
    | Some t =>
        let '(r, t') := rwc_Write t data in
        (Ret r, SerialPort.set_port (Some t') sp, [EvPortWrite data])
    end.

Definition port_Read (n : nat) : M (list byte * option error) :=
  fun sp =>
    match SerialPort.port sp with
    | None => (Panic NilDereference, sp, [])
    | Some t =>
        let '(r, t') := rwc_Read t n in
        (Ret r, SerialPort.set_port (Some t') sp, [EvPortRead (fst r)])
    end.

Definition port_Close : M (option error) :=
  fun sp =>
    match SerialPort.port sp with
    | None => (Panic NilDereference, sp, [])
    | Some t =>
        let '(r, t') := rwc_Close t in
        (Ret r, SerialPort.set_port (Some t') sp, [EvPortClose])
    end.

(** [close(sp.rxChar)]. *)
Definition close_rxChar : M unit :=
  sp <- get ;;
  match SerialPort.rxChar sp with
  | ChanNil => throw CloseOfNilChannel
  | ChanClosed => throw CloseOfClosedChannel
  | ChanOpen => modify (SerialPort.set_rxChar ChanClosed) ;;; emit EvCloseChan
  end.

(** [sp.log]: one line on the logger when [Verbose] is set. *)
Definition log (format : string) (a : list arg) : M unit :=
  sp <- get ;;
  if SerialPort.Verbose sp then emit (EvLog (prefix (SerialPort.logger sp)) format a) else ret tt.

(** [New].  [logFile] is the error of [os.OpenFile] on the day's log
    file; with one, [log.Fatalln] ends the process and there is no
    session. *)
Definition New (logFile : option error) : option (SerialPort.t T) :=
  match logFile with
  | Some _ => None
  | None =>
      Some (SerialPort.mk None EmptyString 0%Z EOL_DEFAULT ChanNil
              (Buffer.NewBuffer (repeat x00 256))
              (mkLogger "PREFIX: ") false true)
  end.

(** The three checked parts of [Open]'s argument list. *)
Definition parseParity (parity : string) (cfg : Config) : Config + error :=
  if negb (String.length parity =? 0) then
    if String.eqb parity "N" then
      inl (mkConfig (Name cfg) (Baud cfg) (ReadTimeout cfg) (Size cfg) ParityNone (StopBits_ cfg))
    else if String.eqb parity "O" then
      inl (mkConfig (Name cfg) (Baud cfg) (ReadTimeout cfg) (Size cfg) ParityOdd (StopBits_ cfg))
    else if String.eqb parity "E" then
      inl (mkConfig (Name cfg) (Baud cfg) (ReadTimeout cfg) (Size cfg) ParityEven (StopBits_ cfg))
    else if String.eqb parity "M" then
      inl (mkConfig (Name cfg) (Baud cfg) (ReadTimeout cfg) (Size cfg) ParityMark (StopBits_ cfg))
    else if String.eqb parity "S" then
      inl (mkConfig (Name cfg) (Baud cfg) (ReadTimeout cfg) (Size cfg) ParitySpace (StopBits_ cfg))
    else inr ErrInvalidParity
  else inl cfg.

Definition parseTimeout (timeout : string) (cfg : Config) : Config + error :=
  if negb (String.length timeout =? 0) then
    match ParseDuration timeout with
    | inr _ => inr ErrInvalidTimeout
    | inl to =>
        inl (mkConfig (Name cfg) (Baud cfg) to (Size cfg) (Parity_ cfg) (StopBits_ cfg))
    end
  else inl cfg.

Definition parseStopBits (stopbit : string) (cfg : Config) : Config + error :=
  if negb (String.length stopbit =? 0) then
    if String.eqb stopbit "1" then
      inl (mkConfig (Name cfg) (Baud cfg) (ReadTimeout cfg) (Size cfg) (Parity_ cfg) Stop1)
    else if String.eqb stopbit "1.5" then
      inl (mkConfig (Name cfg) (Baud cfg) (ReadTimeout cfg) (Size cfg) (Parity_ cfg) Stop1Half)
    else if String.eqb stopbit "2" then
      inl (mkConfig (Name cfg) (Baud cfg) (ReadTimeout cfg) (Size cfg) (Parity_ cfg) Stop2)
    else inr ErrInvalidStopBits
  else inl cfg.

Definition parseDataBits (databits : string) : byte :=
  if String.eqb databits "5" then x05
  else if String.eqb databits "6" then x06
  else if String.eqb databits "7" then x07
  else if String.eqb databits "8" then DefaultSize
  else DefaultSize.

(** The double quote of the format strings. *)
Definition dq : string := String (Ascii.ascii_of_nat 34) EmptyString.

(** [fmt.Sprintf] of the logger prefix: the name between brackets and a
    space. *)
Definition prefixOf (n : string) : string :=
  String.append "[" (String.append n "] ").

(** [Open]. *)
Definition Open (name : string) (baud : Z)
    (databits timeout parity stopbit : string) : M (option error) :=
  sp <- get ;;
  if SerialPort.portIsOpen sp then ret (Some (ErrAlreadyOpen name))
  else
    let serialCfg := zeroConfig in
    let serialCfg :=
      if negb (String.length name =? 0)
      then mkConfig name (Baud serialCfg) (ReadTimeout serialCfg) (Size serialCfg)
             (Parity_ serialCfg) (StopBits_ serialCfg)
      else serialCfg in
    let serialCfg :=
      if negb (baud =? 0)%Z
      then mkConfig (Name serialCfg) baud (ReadTimeout serialCfg) (Size serialCfg)
             (Parity_ serialCfg) (StopBits_ serialCfg)
      else serialCfg in
    match parseParity parity serialCfg with
    | inr e => ret (Some e)
    | inl serialCfg =>
    match parseTimeout timeout serialCfg with
    | inr e => ret (Some e)
    | inl serialCfg =>
    match parseStopBits stopbit serialCfg with
    | inr e => ret (Some e)
    | inl serialCfg =>
      let databit := parseDataBits databits in
      emit (EvOpenPort (mkConfig (Name serialCfg) (Baud serialCfg)
                          (ReadTimeout serialCfg) databit
                          (Parity_ serialCfg) (StopBits_ serialCfg))) ;;;
      match openPort (Name serialCfg) (Baud serialCfg) databit
              (Parity_ serialCfg) (StopBits_ serialCfg) (ReadTimeout serialCfg) with
      | inr err => ret (Some (ErrUnableToOpen name err))
      | inl comPort =>
          modify (SerialPort.set_name name) ;;;
          modify (SerialPort.set_baud baud) ;;;
          modify (SerialPort.set_port (Some comPort)) ;;;
          modify (SerialPort.set_portIsOpen true) ;;;
          modify (fun sp => SerialPort.set_buff (Buffer.Reset (SerialPort.buff sp)) sp) ;;;
          emit EvBuffReset ;;;
          modify (SerialPort.set_rxChar ChanOpen) ;;;
          emit EvMakeChan ;;;
          emit (EvGo GoReadSerialPort) ;;;
          emit (EvGo GoProcessSerialPort) ;;;
          sp <- get ;;
          modify (SerialPort.set_logger (mkLogger (prefixOf (SerialPort.name sp)))) ;;;
          emit (EvSetPrefix (prefixOf (SerialPort.name sp))) ;;;
          log "Serial port %s@%d open"
            [ArgS (SerialPort.name sp); ArgI (SerialPort.baud sp)] ;;;
          ret None
      end
    end end end.

(** [Close]. *)
Definition Close : M (option error) :=
  sp <- get ;;
  if SerialPort.portIsOpen sp then
    modify (SerialPort.set_portIsOpen false) ;;;
    close_rxChar ;;;
    log "Serial port %s closed" [ArgS (SerialPort.name sp)] ;;;
    port_Close
  else ret None.

(** [Write]: the named results [n] and [err]. *)
Definition Write (data : list byte) : M (nat * option error) :=
  sp <- get ;;
  if SerialPort.portIsOpen sp then
    '(n, err) <- port_Write data ;;
    match err with
    | Some _ => ret (n, err)
    | None => log "Tx >> %s" [ArgB data] ;;; ret (n, err)
    end
  else ret (0, Some ErrNotOpen).

(** [Print]. *)
Definition Print (str : string) : M (option error) :=
  sp <- get ;;
  if SerialPort.portIsOpen sp then
    '(_, err) <- port_Write (list_byte_of_string str) ;;
    match err with
    | Some e => ret (Some e)
    | None => log "Tx >> %s" [ArgS str] ;;; ret None
    end
  else ret (Some ErrNotOpen).

(** [Println]: the text followed by carriage return and newline. *)
Definition Println (str : string) : M (option error) :=
  Print (String.append str (String "013"%char (String "010"%char EmptyString))).

(** [SendFile].  [q] is the chunk size; [sendLoop] is the [for] loop
    with [sentBytes] as its argument, and [fuel] bounds the number of
    times its body runs. *)
Definition q : nat := 512.

Fixpoint sendLoop (fuel : nat) (file : list byte) (sentBytes : nat)
  : M (option error) :=
  if sentBytes <=? length file then
    match fuel with
    | 0 => outOfFuel
    | S fuel' =>
        rest <- index (slice_from file sentBytes) ;;
        data <- (if q <? length rest
                 then index (slice file sentBytes (sentBytes + q))
                 else index (slice_from file sentBytes)) ;;
        '(_, err) <- port_Write data ;;
        match err with
        | Some e =>
            log "DBG >> %s" [ArgS "Error while sending the file"] ;;;
            ret (Some e)
        | None =>
            emit (EvSleep 100) ;;;
            sendLoop fuel' file (sentBytes + q)
        end
    end
  else ret None.

Definition SendFile (filepath : string) : M (option error) :=
  match ReadFile filepath with
  | inr err =>
      log "DBG >> %s" [ArgS "Invalid filepath"] ;;;
      ret (Some err)
  | inl file =>
      let fileSize := length file in
      log "INF >> %s" [ArgS "File size is %d bytes"; ArgI (Z.of_nat fileSize)] ;;;
      sendLoop (S fileSize) file 0
  end.

(** [Read]: the first byte of the serial buffer. *)
Definition Read : M (byte * option error) :=
  sp <- get ;;
  if SerialPort.portIsOpen sp then
    let '(r, b) := Buffer.ReadByte (SerialPort.buff sp) in
    modify (SerialPort.set_buff b) ;;;
    ret r
  else ret (x00, Some ErrNotOpen).

(** [ReadLine]: the first available line of the serial buffer. *)
Definition ReadLine : M (list byte * option error) :=
  sp <- get ;;
  if SerialPort.portIsOpen sp then
    let '((line, err), b) := Buffer.ReadString (SerialPort.buff sp) (SerialPort.eol sp) in
    modify (SerialPort.set_buff b) ;;;
    match err with
    | Some e => ret ([], Some e)
    | None => ret (removeEOL line, None)
    end
  else ret ([], Some ErrNotOpen).

(** The goroutine of [WaitForRegexTimeout] raced against
    [time.After(timeout)], under a schedule: [sched] has one entry for
    each pass of the polling loop that ends before the timer fires, and
    the entry is what the Reader Loop wrote to the buffer before that
    pass read a line.  [None] is the timer firing first. *)
Fixpoint pollLoop (regExpPatttern : Regexp) (sched : list (list byte))
  : M (option (list byte)) :=
  match sched with
  | [] => ret None
  | arrived :: sched' =>
      emit (EvSleep 50) ;;;
      modify (fun sp => SerialPort.set_buff (Buffer.Write (SerialPort.buff sp) arrived) sp) ;;;
      '(line, err) <- ReadLine ;;
      match err with
      | Some _ => pollLoop regExpPatttern sched'
      | None =>
          match FindAllString regExpPatttern line with
          | [] => pollLoop regExpPatttern sched'
          | r0 :: _ => ret (Some r0)
          end
      end
  end.

(** [WaitForRegexTimeout].  [regexp.MustCompile] panics on an
    expression that does not compile. *)
Definition WaitForRegexTimeout (exp : string) (timeout : Duration)
    (sched : list (list byte)) : M (list byte * option error) :=
  sp <- get ;;
  if SerialPort.portIsOpen sp then
    match Compile exp with
    | inr _ => throw (MustCompilePanic exp)
    | inl regExpPatttern =>
        emit (EvGo GoWaitPoller) ;;;
        log (String.append "INF >> Waiting for RegExp: "
               (String.append dq (String.append "%s" dq))) [ArgS exp] ;;;
        r <- pollLoop regExpPatttern sched ;;
        match r with
        | Some data =>
            log (String.append "INF >> The RegExp: "
                   (String.append dq (String.append "%s" dq))) [ArgS exp] ;;;
            log (String.append "INF >> Has been matched: "
                   (String.append dq (String.append "%s" dq))) [ArgB data] ;;;
            ret (data, None)
        | None =>
            log (String.append "INF >> Unable to match RegExp: "
                   (String.append dq (String.append "%s" dq))) [ArgS exp] ;;;
            ret ([], Some ErrTimeoutExpired)
        end
    end
  else ret ([], Some ErrNotOpen).

(** [Available]: the number of unread bytes of the serial buffer. *)
Definition Available : M nat :=
  sp <- get ;;
  ret (Buffer.Len (SerialPort.buff sp)).

(** [EOL]: change the end of line character. *)
Definition EOL (c : byte) : M unit :=
  modify (SerialPort.set_eol c).

(** One pass of the [for] loop of [readSerialPort], taken while the
    port is open: read at most 256 bytes, write them to the serial
    buffer, hand each one to the per-byte channel. *)
Fixpoint forward (bs : list byte) : M unit :=
  match bs with
  | [] => ret tt
  | b :: bs' =>
      sp <- get ;;
      (if SerialPort.portIsOpen sp then emit (EvSend b) else ret tt) ;;;
      forward bs'
  end.

Definition readSerialPort_pass : M unit :=
  '(data, _) <- port_Read 256 ;;
  let rx := firstn 256 data in
  modify (fun sp => SerialPort.set_buff (Buffer.Write (SerialPort.buff sp) rx) sp) ;;;
  forward rx.

(** [processSerialPort] on the bytes [rx] it receives from the
    channel, with [screenBuff] as accumulated so far. *)
Fixpoint processSerialPort (rx : list byte) (screenBuff : list byte)
  : M (list byte) :=
  match rx with
  | [] => ret screenBuff
  | lastRxByte :: rx' =>
      sp <- get ;;
      if SerialPort.portIsOpen sp then
        if Byte.eqb lastRxByte (SerialPort.eol sp) then
          log "Rx << %s" [ArgB (screenBuff ++ [lastRxByte])] ;;;
          processSerialPort rx' []
        else processSerialPort rx' (screenBuff ++ [lastRxByte])
      else ret screenBuff
  end.

(** [k] calls of a method, one after the other, with their results in
    call order. *)
Fixpoint times {A} (k : nat) (m : M A) : M (list A) :=
  match k with
  | 0 => ret []
  | S k' => a <- m ;; rest <- times k' m ;; ret (a :: rest)
  end.

End Methods.

(* ------------------------------------------------------------------ *)
(** ** A simulated device

    The theorems below hold for every transport, platform and regexp
    engine.  This module gives one of each, small enough to run, on
    which they are tried. *)

Module Sim.

(** The device end of the line: the chunks written to it so far, the
    batches it will deliver to reads, and whether it was closed. *)
Record Port : Type := mkPort {
  sent : list (list byte);
  pending : list (list byte);
  closed : bool
}.

Definition errClosed : error := ErrExternal "file already closed".

Definition portRead (p : Port) (n : nat) : (list byte * option error) * Port :=
  if closed p then (([], Some errClosed), p)
  else
    match pending p with
    | [] => (([], None), p)
    | batch :: later =>
        ((firstn n batch, None), mkPort (sent p) later (closed p))
    end.

Definition portWrite (p : Port) (data : list byte) : (nat * option error) * Port :=
  if closed p then ((0, Some errClosed), p)
  else ((length data, None), mkPort (sent p ++ [data]) (pending p) (closed p)).

Definition portClose (p : Port) : option error * Port :=
  if closed p then (Some errClosed, p)
  else (None, mkPort (sent p) (pending p) true).

#[global] Instance rwc : ReadWriteCloser Port :=
  {| rwc_Read := portRead; rwc_Write := portWrite; rwc_Close := portClose |}.

(** [time.ParseDuration] for one decimal count and one unit; the signs,
    fractions and sums of terms that Go also reads are refused. *)
Definition digit (c : ascii) : option Z :=
  let n := nat_of_ascii c in
  if (48 <=? n) && (n <=? 57) then Some (Z.of_nat (n - 48)) else None.

Fixpoint count (s : string) (acc : Z) (seen : bool) : option (Z * string) :=
  match s with
  | EmptyString => if seen then Some (acc, s) else None
  | String c s' =>
      match digit c with
      | Some d => count s' (10 * acc + d)%Z true
      | None => if seen then Some (acc, s) else None
      end
  end.

Definition unitOf (u : string) : option Z :=
  if String.eqb u "ns" then Some 1%Z
  else if String.eqb u "us" then Some 1000%Z
  else if String.eqb u "ms" then Some 1000000%Z
  else if String.eqb u "s" then Some 1000000000%Z
  else if String.eqb u "m" then Some 60000000000%Z
  else if String.eqb u "h" then Some 3600000000000%Z
  else None.

Definition parseDuration (s : string) : Duration + error :=
  match count s 0%Z false with
  | Some (n, u) =>
      match unitOf u with
      | Some k => inl (n * k)%Z
      | None => inr (ErrExternal "time: invalid duration")
      end
  | None => inr (ErrExternal "time: invalid duration")
  end.

(** Three files on disk: an empty one, one of 3 bytes, one of 1024. *)
Definition readFile (path : string) : list byte + error :=
  if String.eqb path "empty.bin" then inl []
  else if String.eqb path "abc.bin" then inl [x61; x62; x63]
  else if String.eqb path "1k.bin" then inl (repeat x55 1024)
  else inr (ErrExternal "no such file or directory").

(** Every named port exists and is idle. *)
Definition open (name : string) (_ : Z) (_ : byte) (_ : Parity)
    (_ : StopBits) (_ : Duration) : Port + error :=
  if String.length name =? 0 then inr (ErrExternal "no such device")
  else inl (mkPort [] [] false).

#[global] Instance platform : Platform Port :=
  {| openPort := open; ParseDuration := parseDuration; ReadFile := readFile |}.

(** A regexp engine for two kinds of expression.  One without any
    metacharacter compiles and matches itself, as in Go.  One without
    backslash and bracket whose parentheses do not pair up does not
    compile, as in Go (missing closing or unexpected parenthesis).  Any
    other expression is taken as compiled and never matches: the engine
    does not interpret it. *)
Fixpoint paired (s : string) (depth : nat) : bool :=
  match s with
  | EmptyString => depth =? 0
  | String c s' =>
      if Ascii.eqb c "(" then paired s' (S depth)
      else if Ascii.eqb c ")" then
        match depth with
        | 0 => false
        | S d => paired s' d
        end
      else paired s' depth
  end.

Fixpoint has (c : ascii) (s : string) : bool :=
  match s with
  | EmptyString => false
  | String x s' => Ascii.eqb x c || has c s'
  end.

Definition metachars : string := "\.+*?()|[]{}^$".

Fixpoint plain (s : string) : bool :=
  match s with
  | EmptyString => true
  | String c s' => negb (has c metachars) && plain s'
  end.

Definition compile (exp : string) : string + error :=
  if negb (has "\" exp) && negb (has "[" exp) && negb (paired exp 0)
  then inr (ErrExternal "error parsing regexp")
  else inl exp.

Fixpoint startsWith (lit s : list byte) : bool :=
  match lit, s with
  | [], _ => true
  | _ :: _, [] => false
  | a :: lit', b :: s' => Byte.eqb a b && startsWith lit' s'
  end.

(** The successive matches of a text in [s], none overlapping the one
    before; [skip] bytes of [s] belong to the last match. *)
Fixpoint occurrences (lit s : list byte) (skip : nat) : list (list byte) :=
  match s with
  | [] => if (skip =? 0) && (length lit =? 0) then [[]] else []
  | _ :: s' =>
      match skip with
      | S k => occurrences lit s' k
      | 0 =>
          if startsWith lit s
          then lit :: occurrences lit s' (length lit - 1)
          else occurrences lit s' 0
      end
  end.

Definition findAllString (re : string) (s : list byte) : list (list byte) :=
  if plain re then occurrences (list_byte_of_string re) s 0 else [].

#[global] Instance regexp : RegexpEngine :=
  {| Regexp := string; Compile := compile; FindAllString := findAllString |}.

(** A session made by [New], and the same one opened on COM1 at 9600
    baud, 8 data bits, no timeout, no parity, one stop bit. *)
Definition fresh : SerialPort.t Port :=
  match New None with
  | Some sp => sp
  | None => SerialPort.mk None EmptyString 0%Z EOL_DEFAULT ChanNil
              (Buffer.mk []) (mkLogger EmptyString) false false
  end.

Definition opened : SerialPort.t Port :=
  snd (fst (Open "COM1" 9600 "8" EmptyString "N" "1" fresh)).

(** The opened session with [data] in its serial buffer and [c] as its
    end of line character. *)
Definition holding (c : byte) (data : list byte) : SerialPort.t Port :=
  let sp := snd (fst (EOL c opened)) in
  SerialPort.set_buff (Buffer.Write (SerialPort.buff sp) data) sp.

(** The opened session after [Close]. *)
Definition shut : SerialPort.t Port := snd (fst (Close opened)).

End Sim.

(* ------------------------------------------------------------------ *)
(** ** Notions the theorems are stated with *)

(** The chunks handed to [sp.port.Write], in order. *)
Definition writes (evs : list Event) : list (list byte) :=
  flat_map (fun e => match e with EvPortWrite d => [d] | _ => [] end) evs.

(** What one pass of the loop sends when it starts at [sentBytes]. *)
Definition chunk (file : list byte) (sentBytes : nat) : list byte :=
  firstn q (skipn sentBytes file).

(** A transport takes every write as long as [Inv] holds of it, and
    taking a write keeps [Inv]. *)
Definition accepts_writes {T} {RWC : ReadWriteCloser T} (Inv : T -> Prop) : Prop :=
  forall t d,
    Inv t ->
    snd (fst (rwc_Write t d)) = None /\ Inv (snd (rwc_Write t d)).

(** The bytes of a text that are neither carriage return nor newline,
    wherever they stand. *)
Definition keeps (b : byte) : bool := negb (Byte.eqb b CR) && negb (Byte.eqb b LF).

Definition withoutCRLF (s : list byte) : list byte := filter keeps s.

(** [bytes.Count] for a single byte. *)
Fixpoint Count (s : list byte) (c : byte) : nat :=
  match s with
  | [] => 0
  | x :: s' => (if Byte.eqb x c then 1 else 0) + Count s' c
  end.

(** Lines [bodies], each closed by [eol], and then [tail]. *)
Definition joined (eol : byte) (bodies : list (list byte)) (tail : list byte)
  : list byte :=
  concat (map (fun b => b ++ [eol]) bodies) ++ tail.

(** The text of a line as the specification words it: the line without
    its delimiter, [body], and without the carriage return that stands
    before the delimiter. *)
Definition spec_line_text (body : list byte) : list byte :=
  match rev body with
  | x :: r => if Byte.eqb x CR then rev r else body
  | [] => body
  end.

(* ------------------------------------------------------------------ *)
(** ** The rest of the package *)

(** [Printf]: [fmt.Sprintf] is applied only when there are arguments.
    [Sprintf] stands for it. *)
Definition Printf {T} {RWC : ReadWriteCloser T}
    (Sprintf : string -> list arg -> string)
    (format : string) (args : list arg) : @M T (option error) :=
  let str := format in
  let str := if 0 <? length args then Sprintf format args else str in
  Print str.

(** [posixTimeoutValues]: the VMIN and VTIME of a read timeout.  The
    timeout is an [int64] count of nanoseconds, the division is Go's
    (truncated), and the result is converted to [uint8]. *)
Definition MAXUINT8 : Z := 255.

Definition posixTimeoutValues (readTimeout : Duration) : Z * Z :=
  let minBytesToRead := 1%Z in
  let readTimeoutInDeci := 0%Z in
  if (0 <? readTimeout)%Z then
    let minBytesToRead := 0%Z in
    let readTimeoutInDeci := Z.quot (Z.quot readTimeout 1000000) 100 in
    let readTimeoutInDeci :=
      if (readTimeoutInDeci <? 1)%Z then 1%Z
      else if (MAXUINT8 <? readTimeoutInDeci)%Z then MAXUINT8
      else readTimeoutInDeci in
    (minBytesToRead, readTimeoutInDeci mod 256)%Z
  else (minBytesToRead, readTimeoutInDeci mod 256)%Z.

(** The values [Open] takes for the parity and the stop bits. *)
Definition knownParity (parity : string) : bool :=
  String.eqb parity "N" || String.eqb parity "O" || String.eqb parity "E"
  || String.eqb parity "M" || String.eqb parity "S".

Definition knownStopBits (stopbit : string) : bool :=
  String.eqb stopbit "1" || String.eqb stopbit "1.5" || String.eqb stopbit "2".

(** Parts of a run's events: the bytes handed to the per-byte channel,
    the pauses in milliseconds, the log lines. *)
Definition sends (evs : list Event) : list byte :=
  flat_map (fun e => match e with EvSend b => [b] | _ => [] end) evs.

Definition sleeps (evs : list Event) : list nat :=
  flat_map (fun e => match e with EvSleep ms => [ms] | _ => [] end) evs.

Definition logged (evs : list Event) : list Event :=
  filter (fun e => match e with EvLog _ _ _ => true | _ => false end) evs.

(** A computation is quiet when, started with [Verbose] off, it logs
    nothing and leaves [Verbose] off. *)
Definition quiet {T A} (m : @M T A) : Prop :=
  forall sp,
    SerialPort.Verbose sp = false ->
    logged (snd (m sp)) = [] /\
    SerialPort.Verbose (snd (fst (m sp))) = false.

(* ------------------------------------------------------------------ *)
(** ** The simulated device at work *)

Example sim_opened :
  SerialPort.portIsOpen Sim.opened = true /\
  SerialPort.port Sim.opened = Some (Sim.mkPort [] [] false) /\
  Buffer.unread (SerialPort.buff Sim.opened) = [].
Proof. repeat split. Qed.

Example sim_readline_AT :
  ReadLine (Sim.holding LF (list_byte_of_string ("AT" ++ String "013" (String "010" "OK"))%string))
  = (Ret (list_byte_of_string "AT", None),
     Sim.holding LF (list_byte_of_string "OK"), []).
Proof. reflexivity. Qed.

Example sim_shut :
  SerialPort.portIsOpen Sim.shut = false /\
  SerialPort.port Sim.shut = Some (Sim.mkPort [] [] true).
Proof. split; reflexivity. Qed.

(** The device answers O, K, carriage return, newline: one pass of the
    Reader Loop buffers the four bytes and hands each to the channel;
    the Line Framer logs the line when the newline comes. *)
Example sim_reader_pass :
  let dev := SerialPort.set_port
               (Some (Sim.mkPort [] [[x4f; x4b; CR; LF]] false)) Sim.opened in
  Buffer.unread (SerialPort.buff (snd (fst (readSerialPort_pass dev))))
    = [x4f; x4b; CR; LF] /\
  snd (readSerialPort_pass dev)
    = [EvPortRead [x4f; x4b; CR; LF]; EvSend x4f; EvSend x4b; EvSend CR; EvSend LF].
Proof. split; reflexivity. Qed.

Example sim_framer :
  processSerialPort [x4f; x4b; CR; LF; x3e] [] Sim.opened
  = (Ret [x3e], Sim.opened,
     [EvLog "[COM1] " "Rx << %s" [ArgB [x4f; x4b; CR; LF]]]).
Proof. reflexivity. Qed.

(** The line arrives before the second pass of the polling loop; with
    nothing arriving during two passes the timer wins. *)
Example sim_wait_match :
  fst (fst (WaitForRegexTimeout "OK" 1000000000%Z [[]; [x4f; x4b; CR; LF]] Sim.opened))
    = Ret ([x4f; x4b], None) /\
  fst (fst (WaitForRegexTimeout "OK" 100000000%Z [[]; []] Sim.opened))
    = Ret ([], Some ErrTimeoutExpired).
Proof. split; reflexivity. Qed.

Example sim_open_refused :
  fst (fst (Open "COM1" 9600 "8" "soon" "N" "1" Sim.fresh)) = Ret (Some ErrInvalidTimeout) /\
  fst (fst (Open "COM1" 9600 "8" "1s" "X" "1" Sim.fresh)) = Ret (Some ErrInvalidParity) /\
  fst (fst (Open "COM1" 9600 "8" "1s" "E" "3" Sim.fresh)) = Ret (Some ErrInvalidStopBits) /\
  fst (fst (Open EmptyString 9600 "8" "1s" "E" "2" Sim.fresh))
    = Ret (Some (ErrUnableToOpen EmptyString (ErrExternal "no such device"))).
Proof. repeat split. Qed.

Example sim_read_bytes :
  fst (fst (times 3 Read (Sim.holding LF [x41; x42])))
  = Ret [(x41, None); (x42, None); (x00, Some io_EOF)].
Proof. reflexivity. Qed.

(* ------------------------------------------------------------------ *)
(** ** Running the monad, one step at a time *)

Section Steps.

Context {T : Type} {RWC : ReadWriteCloser T}.

Lemma prepend_nil A (x : Res A * SerialPort.t T * list Event) : prepend [] x = x.
Proof. destruct x as [[r s] e]. reflexivity. Qed.

Lemma prepend_prepend A e1 e2 (x : Res A * SerialPort.t T * list Event) :
  prepend e1 (prepend e2 x) = prepend (e1 ++ e2) x.
Proof. destruct x as [[r s] e]. simpl. rewrite app_assoc. reflexivity. Qed.

Lemma prepend_pair A e1 (r : Res A) (s : SerialPort.t T) e2 :
  prepend e1 (r, s, e2) = (r, s, e1 ++ e2).
Proof. reflexivity. Qed.

Lemma result_prepend A e1 (x : Res A * SerialPort.t T * list Event) :
  fst (fst (prepend e1 x)) = fst (fst x).
Proof. destruct x as [[r s] e]. reflexivity. Qed.

Lemma state_prepend A e1 (x : Res A * SerialPort.t T * list Event) :
  snd (fst (prepend e1 x)) = snd (fst x).
Proof. destruct x as [[r s] e]. reflexivity. Qed.

Lemma events_prepend A e1 (x : Res A * SerialPort.t T * list Event) :
  snd (prepend e1 x) = e1 ++ snd x.
Proof. destruct x as [[r s] e]. reflexivity. Qed.

Lemma bind_run A B (m : @M T A) (k : A -> @M T B) sp a sp1 ev1 :
  m sp = (Ret a, sp1, ev1) -> bind m k sp = prepend ev1 (k a sp1).
Proof. intros H. unfold bind. rewrite H. reflexivity. Qed.

Lemma bind_panic A B (m : @M T A) (k : A -> @M T B) sp p sp1 ev1 :
  m sp = (Panic p, sp1, ev1) -> bind m k sp = (Panic p, sp1, ev1).
Proof. intros H. unfold bind. rewrite H. reflexivity. Qed.

Lemma bind_ret A B (a : A) (k : A -> @M T B) sp : bind (ret a) k sp = k a sp.
Proof. unfold bind, ret. apply prepend_nil. Qed.

Lemma bind_get B (k : SerialPort.t T -> @M T B) sp : bind get k sp = k sp sp.
Proof. unfold bind, get. apply prepend_nil. Qed.

Lemma bind_modify B f (k : unit -> @M T B) sp : bind (modify f) k sp = k tt (f sp).
Proof. unfold bind, modify. apply prepend_nil. Qed.

Lemma bind_emit B e (k : unit -> @M T B) sp :
  bind (emit e) k sp = prepend [e] (k tt sp).
Proof. reflexivity. Qed.

Lemma bind_throw A B p (k : A -> @M T B) sp :
  bind (throw p) k sp = (Panic p, sp, []).
Proof. reflexivity. Qed.

Lemma log_run format a (sp : SerialPort.t T) :
  log format a sp
  = (Ret tt, sp,
     if SerialPort.Verbose sp
     then [EvLog (prefix (SerialPort.logger sp)) format a] else []).
Proof.
  unfold log. rewrite bind_get. destruct (SerialPort.Verbose sp); reflexivity.
Qed.

Lemma bind_log B format a (k : unit -> @M T B) sp :
  bind (log format a) k sp
  = prepend (if SerialPort.Verbose sp
             then [EvLog (prefix (SerialPort.logger sp)) format a] else [])
      (k tt sp).
Proof. apply bind_run. apply log_run. Qed.

End Steps.

Create Rewrite HintDb run.

#[global] Hint Rewrite @bind_ret @bind_get @bind_modify @bind_emit @bind_throw
  @bind_log @prepend_nil @prepend_pair @result_prepend @state_prepend
  @events_prepend : run.

(* ------------------------------------------------------------------ *)
(** ** Operations on a closed session *)

Section Closed.

Context {T : Type} {RWC : ReadWriteCloser T} {PF : Platform T} {RE : RegexpEngine}.

Variable sp : SerialPort.t T.
Hypothesis Hclosed : SerialPort.portIsOpen sp = false.

Lemma Read_closed : Read sp = (Ret (x00, Some ErrNotOpen), sp, []).
Proof. unfold Read. rewrite bind_get, Hclosed. reflexivity. Qed.

Lemma ReadLine_closed : ReadLine sp = (Ret ([], Some ErrNotOpen), sp, []).
Proof. unfold ReadLine. rewrite bind_get, Hclosed. reflexivity. Qed.

Lemma Write_closed data : Write data sp = (Ret (0, Some ErrNotOpen), sp, []).
Proof. unfold Write. rewrite bind_get, Hclosed. reflexivity. Qed.

Lemma Print_closed str : Print str sp = (Ret (Some ErrNotOpen), sp, []).
Proof. unfold Print. rewrite bind_get, Hclosed. reflexivity. Qed.

Lemma Println_closed str : Println str sp = (Ret (Some ErrNotOpen), sp, []).
Proof. unfold Println. apply Print_closed. Qed.

Lemma WaitForRegexTimeout_closed exp timeout sched :
  WaitForRegexTimeout exp timeout sched sp = (Ret ([], Some ErrNotOpen), sp, []).
Proof. unfold WaitForRegexTimeout. rewrite bind_get, Hclosed. reflexivity. Qed.

End Closed.

(* ------------------------------------------------------------------ *)
(** ** The loop of [SendFile] *)

Lemma writes_app e1 e2 : writes (e1 ++ e2) = writes e1 ++ writes e2.
Proof. unfold writes. apply flat_map_app. Qed.

Section SendLoop.

Context {T : Type} {RWC : ReadWriteCloser T} {PF : Platform T}.

Lemma port_Write_nil (sp : SerialPort.t T) d :
  SerialPort.port sp = None -> port_Write d sp = (Panic NilDereference, sp, []).
Proof. intros H. unfold port_Write. rewrite H. reflexivity. Qed.

Lemma port_Write_run (sp : SerialPort.t T) d t :
  SerialPort.port sp = Some t ->
  port_Write d sp
  = (Ret (fst (rwc_Write t d)),
     SerialPort.set_port (Some (snd (rwc_Write t d))) sp, [EvPortWrite d]).
Proof.
  intros H. unfold port_Write. rewrite H.
  destruct (rwc_Write t d) as [r t']. reflexivity.
Qed.

(** Inside the loop both slice expressions are in range, and the data
    they select is [chunk]. *)
Lemma loop_slices A (file : list byte) sentBytes (k : list byte -> @M T A) sp :
  sentBytes <= length file ->
  bind (index (slice_from file sentBytes))
    (fun rest =>
       bind (if q <? length rest
             then index (slice file sentBytes (sentBytes + q))
             else index (slice_from file sentBytes)) k) sp
  = k (chunk file sentBytes) sp.
Proof.
  intros Hle. unfold slice_from, slice, chunk.
  apply Nat.leb_le in Hle as Hb. rewrite Hb. unfold index at 1.
  rewrite bind_ret, length_skipn.
  destruct (q <? length file - sentBytes) eqn:Hq.
  - apply Nat.ltb_lt in Hq.
    assert (H1 : (sentBytes <=? sentBytes + q) = true) by (apply Nat.leb_le; lia).
    assert (H2 : (sentBytes + q <=? length file) = true) by (apply Nat.leb_le; lia).
    rewrite H1, H2. simpl andb. unfold index. rewrite bind_ret.
    replace (sentBytes + q - sentBytes) with q by lia. reflexivity.
  - apply Nat.ltb_ge in Hq. unfold index. rewrite bind_ret.
    rewrite firstn_all2 by (rewrite length_skipn; lia). reflexivity.
Qed.

Lemma sendLoop_done fuel (file : list byte) sentBytes (sp : SerialPort.t T) :
  length file < sentBytes ->
  sendLoop fuel file sentBytes sp = (Ret None, sp, []).
Proof.
  intros H. apply Nat.leb_gt in H.
  destruct fuel; simpl; rewrite H; reflexivity.
Qed.

Lemma sendLoop_pass fuel (file : list byte) sentBytes (sp : SerialPort.t T) :
  sentBytes <= length file ->
  sendLoop (S fuel) file sentBytes sp
  = bind (port_Write (chunk file sentBytes))
      (fun x =>
         match snd x with
         | Some e =>
             bind (log "DBG >> %s" [ArgS "Error while sending the file"])
               (fun _ => ret (Some e))
         | None =>
             bind (emit (EvSleep 100))
               (fun _ => sendLoop fuel file (sentBytes + q))
         end) sp.
Proof.
  intros Hle. simpl sendLoop.
  apply Nat.leb_le in Hle as Hb. rewrite Hb.
  rewrite loop_slices by assumption.
  unfold bind. destruct (port_Write (chunk file sentBytes) sp) as [[[[n err]| |] sp1] ev1];
    reflexivity.
Qed.

(** What a pass of the loop can come to: the nil transport panics, a
    failed write returns its error, a good one goes on with the loop. *)
Ltac loop_pass IH :=
  match goal with
  | Hle : ?n <= length ?file |- context [sendLoop (S ?fuel) ?file ?n ?sp] =>
      rewrite sendLoop_pass by assumption;
      let t := fresh "t" in
      let Hp := fresh "Hp" in
      destruct (SerialPort.port sp) as [t|] eqn:Hp;
      [ erewrite bind_run by (apply port_Write_run; eassumption);
        rewrite result_prepend;
        destruct (snd (fst (rwc_Write t (chunk file n))));
        [ rewrite bind_log, result_prepend; simpl; discriminate
        | rewrite bind_emit, result_prepend; apply IH ]
      | erewrite bind_panic by (apply port_Write_nil; assumption);
        simpl; discriminate ]
  end.

(** No pass of the loop slices out of range, whatever the transport
    does. *)
Lemma sendLoop_in_range fuel (file : list byte) :
  forall sentBytes (sp : SerialPort.t T),
    fst (fst (sendLoop fuel file sentBytes sp)) <> Panic SliceOutOfRange.
Proof.
  induction fuel as [|fuel IH]; intros sentBytes sp.
  - simpl. destruct (sentBytes <=? length file); simpl; discriminate.
  - destruct (Nat.le_gt_cases sentBytes (length file)) as [Hle|Hgt].
    + loop_pass IH.
    + rewrite sendLoop_done by assumption. simpl. discriminate.
Qed.

(** [fuel] passes are enough as soon as [fuel] chunks reach past the end
    of the file. *)
Lemma sendLoop_fuel fuel (file : list byte) :
  forall sentBytes (sp : SerialPort.t T),
    length file < sentBytes + fuel * q ->
    fst (fst (sendLoop fuel file sentBytes sp)) <> OutOfFuel.
Proof.
  induction fuel as [|fuel IH]; intros sentBytes sp Hf.
  - rewrite sendLoop_done by lia. simpl. discriminate.
  - rewrite Nat.mul_succ_l in Hf.
    destruct (Nat.le_gt_cases sentBytes (length file)) as [Hle|Hgt].
    + loop_pass IH. lia.
    + rewrite sendLoop_done by assumption. simpl. discriminate.
Qed.

(** [SendFile] is the one method that writes without looking at
    [portIsOpen]: on a readable file it goes straight to
    [sp.port.Write]. *)
Lemma SendFile_never_opened (sp : SerialPort.t T) filepath file :
  ReadFile filepath = inl file ->
  SerialPort.port sp = None ->
  fst (fst (SendFile filepath sp)) = Panic NilDereference.
Proof.
  intros Hf Hp. unfold SendFile. rewrite Hf.
  rewrite bind_log, result_prepend.
  rewrite sendLoop_pass by lia.
  erewrite bind_panic by (apply port_Write_nil; assumption).
  reflexivity.
Qed.

Lemma SendFile_in_range (sp : SerialPort.t T) filepath :
  fst (fst (SendFile filepath sp)) <> Panic SliceOutOfRange.
Proof.
  unfold SendFile. destruct (ReadFile filepath) as [file|err].
  - rewrite bind_log, result_prepend. apply sendLoop_in_range.
  - rewrite bind_log, result_prepend. simpl. discriminate.
Qed.

Lemma SendFile_fuel (sp : SerialPort.t T) filepath :
  fst (fst (SendFile filepath sp)) <> OutOfFuel.
Proof.
  unfold SendFile. destruct (ReadFile filepath) as [file|err].
  - rewrite bind_log, result_prepend. apply sendLoop_fuel.
    rewrite Nat.mul_succ_l. unfold q. lia.
  - rewrite bind_log, result_prepend. simpl. discriminate.
Qed.

Lemma length_concat_full (full : list (list byte)) :
  Forall (fun c => length c = q) full ->
  length (concat full) = length full * q.
Proof.
  induction 1 as [|c full Hc _ IH]; simpl.
  - reflexivity.
  - rewrite length_app, Hc, IH. reflexivity.
Qed.

(** On such a transport the loop started at [sentBytes] returns nil
    after writing the rest of the file: chunks of [q] bytes and then one
    shorter chunk. *)
Lemma sendLoop_writes Inv (file : list byte) :
  accepts_writes Inv ->
  forall fuel sentBytes (sp : SerialPort.t T) t,
    SerialPort.port sp = Some t ->
    Inv t ->
    sentBytes <= length file ->
    length file < sentBytes + fuel * q ->
    exists sp' evs full lastc,
      sendLoop fuel file sentBytes sp = (Ret None, sp', evs) /\
      writes evs = full ++ [lastc] /\
      Forall (fun c => length c = q) full /\
      length lastc < q /\
      concat full ++ lastc = skipn sentBytes file.
Proof.
  intros Hacc. induction fuel as [|fuel IH]; intros sentBytes sp t Hp Ht Hle Hf.
  - simpl in Hf. lia.
  - rewrite sendLoop_pass by assumption.
    erewrite bind_run by (apply port_Write_run; eassumption).
    destruct (Hacc t (chunk file sentBytes) Ht) as [Herr Ht'].
    rewrite Herr, bind_emit, prepend_prepend.
    set (sp1 := SerialPort.set_port (Some (snd (rwc_Write t (chunk file sentBytes)))) sp).
    destruct (Nat.le_gt_cases (sentBytes + q) (length file)) as [Hmore|Hlast].
    + destruct (IH (sentBytes + q) sp1 _ eq_refl Ht' Hmore) as
        (sp' & evs & full & lastc & Hrun & Hw & Hfull & Hlt & Hcat).
      { rewrite Nat.mul_succ_l in Hf. lia. }
      exists sp', ([EvPortWrite (chunk file sentBytes)] ++ [EvSleep 100] ++ evs),
        (chunk file sentBytes :: full), lastc.
      rewrite Hrun. repeat split.
      * simpl. rewrite Hw. reflexivity.
      * constructor; [|assumption].
        unfold chunk. rewrite length_firstn, length_skipn. lia.
      * assumption.
      * simpl. rewrite <- app_assoc, Hcat. unfold chunk.
        rewrite Nat.add_comm, <- skipn_skipn. apply firstn_skipn.
    + exists sp1, ([EvPortWrite (chunk file sentBytes)] ++ [EvSleep 100] ++ []),
        [], (chunk file sentBytes).
      rewrite sendLoop_done by assumption. repeat split.
      * constructor.
      * unfold chunk. rewrite length_firstn, length_skipn. lia.
      * simpl. unfold chunk. apply firstn_all2. rewrite length_skipn. lia.
Qed.

End SendLoop.

(** C4 as the specification has it fails: there is no file, session,
    transport or platform for which [SendFile] ends in an out-of-range
    slice.  On the simulated device the sizes 0, 3 and 1024 all end with
    nil; the chunks written have 0, then 3, then 512, 512 and 0 bytes. *)
Lemma SendFile_no_size_slices_out_of_range :
  ~ (exists (T : Type) (RWC : ReadWriteCloser T) (PF : Platform T)
            (sp : SerialPort.t T) (filepath : string),
        fst (fst (SendFile filepath sp)) = Panic SliceOutOfRange) /\
  fst (fst (SendFile "empty.bin" Sim.opened)) = Ret None /\
  map (@length byte) (writes (snd (SendFile "empty.bin" Sim.opened))) = [0] /\
  fst (fst (SendFile "abc.bin" Sim.opened)) = Ret None /\
  map (@length byte) (writes (snd (SendFile "abc.bin" Sim.opened))) = [3] /\
  fst (fst (SendFile "1k.bin" Sim.opened)) = Ret None /\
  map (@length byte) (writes (snd (SendFile "1k.bin" Sim.opened))) = [512; 512; 0].
Proof.
  split.
  - intros (T & RWC & PF & sp & filepath & H).
    exact (SendFile_in_range sp filepath H).
  - repeat split; vm_compute; reflexivity.
Qed.

(** C4, amended: for every file and every session the loop of
    [SendFile], which adds the fixed 512 to [sentBytes] after each
    write, takes no slice out of range.  It runs only while
    [sentBytes <= fileSize] and slices up to [sentBytes + 512] only when
    more than 512 bytes are left; the run always ends, with nil, an
    error or the panic of the nil transport. *)
Theorem SendFile_slices_in_range
    {T} {RWC : ReadWriteCloser T} {PF : Platform T}
    (sp : SerialPort.t T) (filepath : string) :
  fst (fst (SendFile filepath sp)) <> Panic SliceOutOfRange /\
  fst (fst (SendFile filepath sp)) <> OutOfFuel /\
  (forall file sentBytes,
      sentBytes <= length file ->
      slice_from file sentBytes = Some (skipn sentBytes file) /\
      (q < length (skipn sentBytes file) ->
       slice file sentBytes (sentBytes + q) = Some (chunk file sentBytes))).
Proof.
  split; [apply SendFile_in_range|].
  split; [apply SendFile_fuel|].
  intros file sentBytes Hle. unfold slice_from, slice, chunk. split.
  - apply Nat.leb_le in Hle. rewrite Hle. reflexivity.
  - rewrite length_skipn. intros Hq.
    assert (H1 : (sentBytes <=? sentBytes + q) = true) by (apply Nat.leb_le; lia).
    assert (H2 : (sentBytes + q <=? length file) = true) by (apply Nat.leb_le; lia).
    rewrite H1, H2. simpl andb.
    replace (sentBytes + q - sentBytes) with q by lia. reflexivity.
Qed.

Lemma SendFile_slices_in_range_witness :
  slice_from [x61; x62; x63] 3 = Some [] /\
  fst (fst (SendFile "abc.bin" Sim.opened)) <> OutOfFuel.
Proof.
  destruct (SendFile_slices_in_range Sim.opened "abc.bin") as (_ & Hfuel & Hs).
  split; [|exact Hfuel].
  apply (Hs [x61; x62; x63] 3). simpl. lia.
Defined.

(** C10.  On a transport that takes every write, [SendFile] of a
    readable file returns nil, and the chunks it passed to the
    transport are: as many chunks of 512 bytes as fit, then one last
    chunk with the bytes left over, [length file mod 512] of them.
    Together they are the file, in order.  If the size is not a
    multiple of 512 the last chunk is not empty; if it is one (0
    included), the chunks before the last are already the whole file
    and the last write has length zero. *)
Theorem SendFile_chunks
    {T} {RWC : ReadWriteCloser T} {PF : Platform T}
    (Inv : T -> Prop) (sp : SerialPort.t T) (filepath : string)
    (file : list byte) (t : T) :
  accepts_writes Inv ->
  ReadFile filepath = inl file ->
  SerialPort.port sp = Some t ->
  Inv t ->
  exists sp' evs full lastc,
    SendFile filepath sp = (Ret None, sp', evs) /\
    writes evs = full ++ [lastc] /\
    Forall (fun c => length c = q) full /\
    length lastc = length file mod q /\
    concat (writes evs) = file /\
    (length file mod q <> 0 -> lastc <> []) /\
    (length file mod q = 0 -> lastc = [] /\ concat full = file).
Proof.
  intros Hacc Hfile Hp Ht.
  destruct (@sendLoop_writes _ _ Inv file Hacc (S (length file)) 0 sp t Hp Ht)
    as (sp' & evs & full & lastc & Hrun & Hw & Hfull & Hlt & Hcat).
  { lia. }
  { rewrite Nat.mul_succ_l. unfold q. lia. }
  simpl skipn in Hcat.
  assert (Hlen : length lastc = length file mod q).
  { apply (Nat.mod_unique (length file) q (length full) (length lastc) Hlt).
    rewrite <- Hcat, length_app, (length_concat_full Hfull). lia. }
  exists sp',
    ((if SerialPort.Verbose sp
      then [EvLog (prefix (SerialPort.logger sp)) "INF >> %s"
              [ArgS "File size is %d bytes"; ArgI (Z.of_nat (length file))]]
      else []) ++ evs), full, lastc.
  assert (Hws : writes
            ((if SerialPort.Verbose sp
              then [EvLog (prefix (SerialPort.logger sp)) "INF >> %s"
                      [ArgS "File size is %d bytes"; ArgI (Z.of_nat (length file))]]
              else []) ++ evs) = full ++ [lastc]).
  { rewrite writes_app, Hw. destruct (SerialPort.Verbose sp); reflexivity. }
  split.
  { unfold SendFile. rewrite Hfile, bind_log, Hrun. reflexivity. }
  split; [exact Hws|].
  split; [exact Hfull|].
  split; [exact Hlen|].
  split.
  { rewrite Hws, concat_app. simpl. rewrite app_nil_r. exact Hcat. }
  split.
  - intros Hne Hnil. apply Hne. rewrite <- Hlen, Hnil. reflexivity.
  - intros Hz. rewrite Hz in Hlen.
    destruct lastc; [|discriminate Hlen].
    split; [reflexivity|]. rewrite app_nil_r in Hcat. exact Hcat.
Qed.

Lemma Sim_accepts_writes : accepts_writes (fun p => Sim.closed p = false).
Proof.
  intros p d Hp. simpl. unfold Sim.portWrite. rewrite Hp. simpl. auto.
Qed.

Lemma SendFile_chunks_witness :
  exists sp' evs full lastc,
    SendFile "1k.bin" Sim.opened = (Ret None, sp', evs) /\
    writes evs = full ++ [lastc] /\
    Forall (fun c => length c = q) full /\
    length lastc = length (repeat x55 1024) mod q /\
    concat (writes evs) = repeat x55 1024 /\
    (length (repeat x55 1024) mod q <> 0 -> lastc <> []) /\
    (length (repeat x55 1024) mod q = 0 ->
     lastc = [] /\ concat full = repeat x55 1024).
Proof.
  apply (@SendFile_chunks _ _ _ (fun p => Sim.closed p = false) Sim.opened
           "1k.bin" (repeat x55 1024) (Sim.mkPort [] [] false)).
  - exact Sim_accepts_writes.
  - reflexivity.
  - reflexivity.
  - reflexivity.
Defined.

(** C1, at the input where it fails.  A session made by [New] and never
    opened is closed; [Read], [ReadLine], [Write] and
    [WaitForRegexTimeout] answer with the not-open error, but [SendFile]
    on a readable file of three bytes calls [Write] on the nil transport
    and panics.  On a session that was opened and closed again it writes
    the file to the released transport and hands back that transport's
    own error. *)
Theorem SendFile_closed_session_not_NotOpen :
  SerialPort.portIsOpen Sim.fresh = false /\
  fst (fst (Read Sim.fresh)) = Ret (x00, Some ErrNotOpen) /\
  fst (fst (ReadLine Sim.fresh)) = Ret ([], Some ErrNotOpen) /\
  fst (fst (Write [x61] Sim.fresh)) = Ret (0, Some ErrNotOpen) /\
  fst (fst (WaitForRegexTimeout "OK" 1000000000%Z [] Sim.fresh))
    = Ret ([], Some ErrNotOpen) /\
  ReadFile "abc.bin" = inl [x61; x62; x63] /\
  fst (fst (SendFile "abc.bin" Sim.fresh)) = Panic NilDereference /\
  SerialPort.portIsOpen Sim.shut = false /\
  fst (fst (SendFile "abc.bin" Sim.shut)) = Ret (Some Sim.errClosed) /\
  In (EvPortWrite [x61; x62; x63]) (snd (SendFile "abc.bin" Sim.shut)).
Proof.
  repeat split; try reflexivity.
  vm_compute. right. left. reflexivity.
Qed.

(* ------------------------------------------------------------------ *)
(** ** Patterns that do not compile *)

(** C2 as the specification has it fails: on the opened simulated
    session the unpaired parenthesis does not compile, and the call ends
    in the panic of [regexp.MustCompile]; nothing is returned. *)
Lemma WaitForRegexTimeout_invalid_pattern_no_error_returned :
  SerialPort.portIsOpen Sim.opened = true /\
  Compile "(" = inr (ErrExternal "error parsing regexp") /\
  WaitForRegexTimeout "(" 1000000000%Z [] Sim.opened
    = (Panic (MustCompilePanic "("), Sim.opened, []) /\
  ~ (exists r sp' evs,
        WaitForRegexTimeout "(" 1000000000%Z [] Sim.opened = (Ret r, sp', evs)).
Proof.
  repeat split.
  intros (r & sp' & evs & H). vm_compute in H. discriminate H.
Qed.

(** C2, amended: on an open session an expression that does not compile
    makes [WaitForRegexTimeout] panic in [regexp.MustCompile], before
    the polling goroutine is started and with the session untouched; no
    error value reaches the caller. *)
Theorem WaitForRegexTimeout_uncompilable_panics
    {T} {RE : RegexpEngine}
    (sp : SerialPort.t T) exp timeout sched e :
  SerialPort.portIsOpen sp = true ->
  Compile exp = inr e ->
  WaitForRegexTimeout exp timeout sched sp = (Panic (MustCompilePanic exp), sp, []).
Proof.
  intros Ho Hc. unfold WaitForRegexTimeout.
  rewrite bind_get, Ho, Hc. reflexivity.
Qed.

Lemma WaitForRegexTimeout_uncompilable_panics_witness :
  WaitForRegexTimeout "(" 1000000000%Z [] Sim.opened
    = (Panic (MustCompilePanic "("), Sim.opened, []).
Proof.
  apply (WaitForRegexTimeout_uncompilable_panics Sim.opened "(" 1000000000%Z []
           (e := ErrExternal "error parsing regexp")); reflexivity.
Defined.

(* ------------------------------------------------------------------ *)
(** ** Lines *)

Lemma byte_eqb_spec (x y : byte) : reflect (x = y) (Byte.eqb x y).
Proof.
  destruct (Byte.eqb x y) eqn:E; constructor.
  - apply Byte.byte_dec_bl. exact E.
  - apply Byte.eqb_false. exact E.
Qed.

Lemma byte_eqb_refl (x : byte) : Byte.eqb x x = true.
Proof. apply Byte.byte_dec_lb. reflexivity. Qed.

Lemma removeEOL_filter line : removeEOL line = withoutCRLF line.
Proof.
  unfold removeEOL, withoutCRLF.
  assert (H : forall l acc,
             fold_left
               (fun data b =>
                  if Byte.eqb b CR then data
                  else if Byte.eqb b LF then data else data ++ [b]) l acc
             = acc ++ filter keeps l).
  { induction l as [|b l IH]; intros acc; simpl.
    - rewrite app_nil_r. reflexivity.
    - rewrite IH. unfold keeps.
      destruct (Byte.eqb b CR); simpl; [reflexivity|].
      destruct (Byte.eqb b LF); simpl; [reflexivity|].
      rewrite <- app_assoc. reflexivity. }
  apply (H line []).
Qed.

Lemma removeEOL_line_CRLF eol body :
  eol = LF \/ eol = CR ->
  removeEOL (body ++ [eol]) = withoutCRLF body.
Proof.
  intros H. rewrite removeEOL_filter. unfold withoutCRLF.
  rewrite filter_app.
  destruct H as [-> | ->]; simpl; apply app_nil_r.
Qed.

Lemma removeEOL_line_other eol body :
  eol <> LF -> eol <> CR ->
  removeEOL (body ++ [eol]) = withoutCRLF body ++ [eol].
Proof.
  intros Hlf Hcr. rewrite removeEOL_filter. unfold withoutCRLF.
  rewrite filter_app. simpl. unfold keeps.
  destruct (byte_eqb_spec eol CR) as [E|_]; [contradiction|].
  destruct (byte_eqb_spec eol LF) as [E|_]; [contradiction|].
  reflexivity.
Qed.

(** A byte sequence with [k] delimiters is [k] lines, none holding the
    delimiter, and a rest without one. *)
Lemma split_lines eol (s : list byte) :
  exists bodies tail,
    s = joined eol bodies tail /\
    length bodies = Count s eol /\
    Forall (fun b => ~ In eol b) bodies /\
    ~ In eol tail.
Proof.
  induction s as [|x s (bodies & tail & Hs & Hk & Hb & Ht)].
  - exists [], []. repeat split; auto.
  - simpl Count. destruct (byte_eqb_spec x eol) as [->|Hne].
    + exists ([] :: bodies), tail. unfold joined in *. simpl.
      repeat split; auto. congruence.
    + destruct bodies as [|b0 bodies].
      * exists [], (x :: tail). unfold joined in *. simpl in *.
        repeat split; auto; try congruence.
        intros [E|E]; [congruence | contradiction].
      * exists ((x :: b0) :: bodies), tail. unfold joined in *. simpl in *.
        inversion Hb as [|? ? Hb0 Hbs]; subst.
        repeat split; auto.
        constructor; [|assumption].
        intros [E|E]; [congruence | contradiction].
Qed.

Lemma IndexByte_found eol (body rest : list byte) :
  ~ In eol body ->
  Buffer.IndexByte (body ++ eol :: rest) eol = Some (length body).
Proof.
  induction body as [|x body IH]; intros Hn; simpl.
  - rewrite byte_eqb_refl. reflexivity.
  - destruct (byte_eqb_spec x eol) as [->|_].
    + exfalso. apply Hn. left. reflexivity.
    + rewrite IH; [reflexivity|]. intros H. apply Hn. right. exact H.
Qed.

Lemma IndexByte_absent eol (s : list byte) :
  ~ In eol s -> Buffer.IndexByte s eol = None.
Proof.
  induction s as [|x s IH]; intros Hn; simpl.
  - reflexivity.
  - destruct (byte_eqb_spec x eol) as [->|_].
    + exfalso. apply Hn. left. reflexivity.
    + rewrite IH; [reflexivity|]. intros H. apply Hn. right. exact H.
Qed.

Lemma ReadString_line b eol body rest :
  Buffer.unread b = body ++ eol :: rest ->
  ~ In eol body ->
  Buffer.ReadString b eol = ((body ++ [eol], None), Buffer.mk rest).
Proof.
  intros Hb Hn. unfold Buffer.ReadString.
  rewrite Hb, IndexByte_found by assumption.
  replace (body ++ eol :: rest) with ((body ++ [eol]) ++ rest)
    by (rewrite <- app_assoc; reflexivity).
  replace (S (length body)) with (length (body ++ [eol]))
    by (rewrite length_app; simpl; lia).
  rewrite firstn_app, skipn_app, firstn_all, skipn_all, Nat.sub_diag.
  simpl. rewrite app_nil_r. reflexivity.
Qed.

Lemma ReadString_incomplete b eol :
  ~ In eol (Buffer.unread b) ->
  Buffer.ReadString b eol = ((Buffer.unread b, Some io_EOF), Buffer.mk []).
Proof.
  intros Hn. unfold Buffer.ReadString. rewrite IndexByte_absent by assumption.
  reflexivity.
Qed.

Section Lines.

Context {T : Type} {RWC : ReadWriteCloser T}.

Lemma set_buff_same (sp : SerialPort.t T) :
  SerialPort.set_buff (SerialPort.buff sp) sp = sp.
Proof. destruct sp. reflexivity. Qed.

(** [ReadLine] on a buffer that starts with a line: the line is taken
    off the buffer, delimiter included, and goes through [removeEOL]. *)
Lemma ReadLine_line (sp : SerialPort.t T) body rest :
  SerialPort.portIsOpen sp = true ->
  Buffer.unread (SerialPort.buff sp) = body ++ SerialPort.eol sp :: rest ->
  ~ In (SerialPort.eol sp) body ->
  ReadLine sp
  = (Ret (removeEOL (body ++ [SerialPort.eol sp]), None),
     SerialPort.set_buff (Buffer.mk rest) sp, []).
Proof.
  intros Ho Hb Hn. unfold ReadLine.
  rewrite bind_get, Ho, (@ReadString_line _ _ body rest Hb Hn), bind_modify.
  reflexivity.
Qed.

(** [ReadLine] on a buffer without delimiter: [io.EOF], and what was
    buffered is gone. *)
Lemma ReadLine_incomplete (sp : SerialPort.t T) :
  SerialPort.portIsOpen sp = true ->
  ~ In (SerialPort.eol sp) (Buffer.unread (SerialPort.buff sp)) ->
  ReadLine sp
  = (Ret ([], Some io_EOF), SerialPort.set_buff (Buffer.mk []) sp, []).
Proof.
  intros Ho Hn. unfold ReadLine.
  rewrite bind_get, Ho, (@ReadString_incomplete _ _ Hn), bind_modify.
  reflexivity.
Qed.

(** As many calls as there are lines give the lines in order. *)
Lemma ReadLine_times bodies tail :
  forall sp : SerialPort.t T,
    SerialPort.portIsOpen sp = true ->
    Buffer.unread (SerialPort.buff sp) = joined (SerialPort.eol sp) bodies tail ->
    Forall (fun b => ~ In (SerialPort.eol sp) b) bodies ->
    times (length bodies) ReadLine sp
    = (Ret (map (fun b => (removeEOL (b ++ [SerialPort.eol sp]), None)) bodies),
       SerialPort.set_buff (Buffer.mk tail) sp, []).
Proof.
  induction bodies as [|b bodies IH]; intros sp Ho Hb Hn.
  - simpl. unfold ret. unfold joined in Hb. simpl in Hb.
    rewrite <- Hb. destruct sp as [? ? ? ? ? [u] ? ? ?]. reflexivity.
  - inversion Hn as [|? ? Hn1 Hn2]; subst.
    unfold joined in Hb. simpl in Hb. rewrite <- !app_assoc in Hb. simpl in Hb.
    simpl times.
    erewrite bind_run by (apply ReadLine_line; eassumption).
    rewrite prepend_nil.
    erewrite bind_run by (apply IH; [exact Ho | reflexivity | exact Hn2]).
    rewrite prepend_nil. reflexivity.
Qed.

End Lines.

(** C3, at the input where it fails.  With the end of line character
    set to the semicolon by [EOL] and the three bytes A, T, semicolon
    buffered, [ReadLine] on the open session consumes all three and
    returns all three: [removeEOL] drops carriage returns and newlines,
    not the delimiter in use. *)
Theorem ReadLine_keeps_custom_delimiter :
  SerialPort.portIsOpen (Sim.holding ";"%byte (list_byte_of_string "AT;")) = true /\
  SerialPort.eol (Sim.holding ";"%byte (list_byte_of_string "AT;")) = ";"%byte /\
  Buffer.unread (SerialPort.buff (Sim.holding ";"%byte (list_byte_of_string "AT;")))
    = list_byte_of_string "AT;" /\
  ReadLine (Sim.holding ";"%byte (list_byte_of_string "AT;"))
    = (Ret (list_byte_of_string "AT;", None), Sim.holding ";"%byte [], []).
Proof. repeat split. Qed.

(** The same for every delimiter other than carriage return and
    newline, and every line. *)
Lemma ReadLine_other_delimiter {T} (sp : SerialPort.t T) body rest :
  SerialPort.portIsOpen sp = true ->
  SerialPort.eol sp <> LF ->
  SerialPort.eol sp <> CR ->
  Buffer.unread (SerialPort.buff sp) = body ++ SerialPort.eol sp :: rest ->
  ~ In (SerialPort.eol sp) body ->
  ReadLine sp
  = (Ret (withoutCRLF body ++ [SerialPort.eol sp], None),
     SerialPort.set_buff (Buffer.mk rest) sp, []).
Proof.
  intros Ho Hlf Hcr Hb Hn.
  erewrite ReadLine_line; [|exact Ho|exact Hb|exact Hn].
  rewrite removeEOL_line_other by assumption. reflexivity.
Qed.

(** C5 as the specification has it fails.  With carriage return as the
    delimiter and the bytes a, newline, b, carriage return buffered,
    there is one delimiter and one line, whose text by the
    specification is a, newline, b; the one call of [ReadLine] returns
    a, b.  With the default delimiter and a, carriage return, b,
    carriage return, newline buffered the specification gives a,
    carriage return, b and the call again a, b. *)
Lemma ReadLine_drops_inner_CR_LF :
  let data1 := [x61; LF; x62; CR] in
  let data2 := [x61; CR; x62; CR; LF] in
  Count data1 CR = 1 /\
  data1 = joined CR [[x61; LF; x62]] [] /\
  map spec_line_text [[x61; LF; x62]] = [[x61; LF; x62]] /\
  fst (fst (times 1 ReadLine (Sim.holding CR data1))) = Ret [([x61; x62], None)] /\
  fst (fst (times 1 ReadLine (Sim.holding CR data1)))
    <> Ret (map (fun b => (spec_line_text b, None)) [[x61; LF; x62]]) /\
  Count data2 LF = 1 /\
  data2 = joined LF [[x61; CR; x62; CR]] [] /\
  map spec_line_text [[x61; CR; x62; CR]] = [[x61; CR; x62]] /\
  fst (fst (times 1 ReadLine (Sim.holding LF data2))) = Ret [([x61; x62], None)] /\
  fst (fst (times 1 ReadLine (Sim.holding LF data2)))
    <> Ret (map (fun b => (spec_line_text b, None)) [[x61; CR; x62; CR]]).
Proof.
  repeat split; try (vm_compute; discriminate).
Qed.

(** C5, amended.  On an open session whose delimiter is newline or
    carriage return, a buffer holding exactly [k] delimiter bytes is [k]
    lines followed by a rest without delimiter; [k] calls of [ReadLine]
    return the [k] lines in arrival order, each without its delimiter
    and without any carriage return or newline it held, and leave the
    rest in the buffer; the call after them fails with [io.EOF]. *)
Theorem ReadLine_k_lines {T} (sp : SerialPort.t T) (k : nat) :
  SerialPort.portIsOpen sp = true ->
  SerialPort.eol sp = LF \/ SerialPort.eol sp = CR ->
  Count (Buffer.unread (SerialPort.buff sp)) (SerialPort.eol sp) = k ->
  exists bodies tail,
    Buffer.unread (SerialPort.buff sp) = joined (SerialPort.eol sp) bodies tail /\
    length bodies = k /\
    Forall (fun b => ~ In (SerialPort.eol sp) b) bodies /\
    ~ In (SerialPort.eol sp) tail /\
    times k ReadLine sp
    = (Ret (map (fun b => (withoutCRLF b, None)) bodies),
       SerialPort.set_buff (Buffer.mk tail) sp, []) /\
    fst (fst (ReadLine (SerialPort.set_buff (Buffer.mk tail) sp)))
    = Ret ([], Some io_EOF).
Proof.
  intros Ho Heol Hk.
  destruct (split_lines (SerialPort.eol sp) (Buffer.unread (SerialPort.buff sp)))
    as (bodies & tail & Hs & Hlen & Hb & Ht).
  exists bodies, tail. rewrite Hk in Hlen.
  split; [exact Hs|]. split; [exact Hlen|].
  split; [exact Hb|]. split; [exact Ht|]. split.
  - rewrite <- Hlen. erewrite ReadLine_times; [|exact Ho|exact Hs|exact Hb].
    f_equal. f_equal. f_equal. apply map_ext. intros b.
    rewrite removeEOL_line_CRLF by exact Heol. reflexivity.
  - rewrite ReadLine_incomplete; [reflexivity | exact Ho | exact Ht].
Qed.

Lemma ReadLine_k_lines_witness :
  exists bodies tail,
    [x41; x54; CR; LF; x4f; x4b; CR; LF; x3e] = joined LF bodies tail /\
    length bodies = 2 /\
    Forall (fun b => ~ In LF b) bodies /\
    ~ In LF tail /\
    times 2 ReadLine (Sim.holding LF [x41; x54; CR; LF; x4f; x4b; CR; LF; x3e])
    = (Ret (map (fun b => (withoutCRLF b, None)) bodies),
       SerialPort.set_buff (Buffer.mk tail)
         (Sim.holding LF [x41; x54; CR; LF; x4f; x4b; CR; LF; x3e]), []) /\
    fst (fst (ReadLine
                (SerialPort.set_buff (Buffer.mk tail)
                   (Sim.holding LF [x41; x54; CR; LF; x4f; x4b; CR; LF; x3e]))))
    = Ret ([], Some io_EOF).
Proof.
  apply (ReadLine_k_lines
           (Sim.holding LF [x41; x54; CR; LF; x4f; x4b; CR; LF; x3e]) (k := 2)).
  - reflexivity.
  - left. reflexivity.
  - reflexivity.
Defined.

Example sim_two_lines :
  fst (fst (times 3 ReadLine
              (Sim.holding LF [x41; x54; CR; LF; x4f; x4b; CR; LF; x3e])))
  = Ret [([x41; x54], None); ([x4f; x4b], None); ([], Some io_EOF)].
Proof. reflexivity. Qed.

(* ------------------------------------------------------------------ *)
(** ** The life cycle *)

(** C6.  [Open] on a session whose [portIsOpen] flag is set returns the
    already-open error and does nothing else: the struct (flag,
    transport handle, serial buffer, end of line character and the rest)
    is the one it was given and no effect is recorded. *)
Theorem Open_already_open
    {T} {PF : Platform T}
    (sp : SerialPort.t T) (name : string) (baud : Z)
    (databits timeout parity stopbit : string) :
  SerialPort.portIsOpen sp = true ->
  Open name baud databits timeout parity stopbit sp
  = (Ret (Some (ErrAlreadyOpen name)), sp, []).
Proof.
  intros Ho. unfold Open. rewrite bind_get, Ho. reflexivity.
Qed.

Lemma Open_already_open_witness :
  Open "COM1" 9600 "8" EmptyString "N" "1" Sim.opened
  = (Ret (Some (ErrAlreadyOpen "COM1")), Sim.opened, []).
Proof.
  apply (Open_already_open Sim.opened "COM1" 9600 "8" EmptyString "N" "1").
  reflexivity.
Defined.

Lemma close_rxChar_run {T} (sp : SerialPort.t T) :
  close_rxChar sp
  = match SerialPort.rxChar sp with
    | ChanNil => (Panic CloseOfNilChannel, sp, [])
    | ChanClosed => (Panic CloseOfClosedChannel, sp, [])
    | ChanOpen => (Ret tt, SerialPort.set_rxChar ChanClosed sp, [EvCloseChan])
    end.
Proof.
  unfold close_rxChar. rewrite bind_get.
  destruct (SerialPort.rxChar sp); reflexivity.
Qed.

Lemma port_Close_state {T} {RWC : ReadWriteCloser T} (sp : SerialPort.t T) :
  SerialPort.portIsOpen (snd (fst (port_Close sp))) = SerialPort.portIsOpen sp.
Proof.
  unfold port_Close. destruct (SerialPort.port sp) as [t|]; [|reflexivity].
  destruct (rwc_Close t). reflexivity.
Qed.

(** Whatever [Close] does, the flag is down afterwards. *)
Lemma Close_clears_flag {T} {RWC : ReadWriteCloser T} (sp : SerialPort.t T) :
  SerialPort.portIsOpen (snd (fst (Close sp))) = false.
Proof.
  unfold Close. rewrite bind_get.
  destruct (SerialPort.portIsOpen sp) eqn:Ho; [|exact Ho].
  rewrite bind_modify.
  pose proof (close_rxChar_run (SerialPort.set_portIsOpen false sp)) as Hc.
  destruct (SerialPort.rxChar (SerialPort.set_portIsOpen false sp)).
  - erewrite bind_panic by exact Hc. reflexivity.
  - erewrite bind_run by exact Hc.
    rewrite state_prepend, bind_log, state_prepend, port_Close_state.
    reflexivity.
  - erewrite bind_panic by exact Hc. reflexivity.
Qed.

(** C7.  [Close] on a session whose flag is down returns nil, leaves the
    struct as it was and has no effect; and since the flag is down after
    any [Close], a second [Close] right after a first is that no-op. *)
Theorem Close_closed_noop {T} {RWC : ReadWriteCloser T} (sp : SerialPort.t T) :
  (SerialPort.portIsOpen sp = false -> Close sp = (Ret None, sp, [])) /\
  Close (snd (fst (Close sp))) = (Ret None, snd (fst (Close sp)), []).
Proof.
  assert (H : forall s : SerialPort.t T,
             SerialPort.portIsOpen s = false -> Close s = (Ret None, s, [])).
  { intros s Hs. unfold Close. rewrite bind_get, Hs. reflexivity. }
  split.
  - apply H.
  - apply H. apply Close_clears_flag.
Qed.

Lemma Close_closed_noop_witness :
  Close Sim.shut = (Ret None, Sim.shut, []) /\
  Close (snd (fst (Close Sim.opened)))
  = (Ret None, snd (fst (Close Sim.opened)), []).
Proof.
  split.
  - apply (proj1 (Close_closed_noop Sim.shut)). reflexivity.
  - apply (proj2 (Close_closed_noop Sim.opened)).
Defined.

(** C8.  When [Open] returns nil the serial buffer of the session is
    empty, whatever it held before, so [Available] gives 0 on the state
    [Open] leaves; the flag is up; and among the effects of the call the
    buffer reset comes before the two goroutines are started: after the
    call to [openPort] come the reset, the new channel, the Reader Loop,
    the Line Framer, the logger prefix and the log line. *)
Theorem Open_resets_buffer
    {T} {PF : Platform T}
    (sp sp' : SerialPort.t T) (name : string) (baud : Z)
    (databits timeout parity stopbit : string) (evs : list Event) :
  Open name baud databits timeout parity stopbit sp = (Ret None, sp', evs) ->
  SerialPort.portIsOpen sp' = true /\
  SerialPort.buff sp' = Buffer.mk [] /\
  Available sp' = (Ret 0, sp', []) /\
  exists cfg,
    evs = [EvOpenPort cfg; EvBuffReset; EvMakeChan;
           EvGo GoReadSerialPort; EvGo GoProcessSerialPort;
           EvSetPrefix (prefixOf name)]
          ++ (if SerialPort.Verbose sp
              then [EvLog (prefixOf name) "Serial port %s@%d open"
                      [ArgS name; ArgI baud]]
              else []).
Proof.
  unfold Open. rewrite bind_get.
  destruct (SerialPort.portIsOpen sp); [discriminate|].
  cbv zeta.
  destruct (parseParity parity _) as [c1|e]; [|discriminate].
  destruct (parseTimeout timeout c1) as [c2|e]; [|discriminate].
  destruct (parseStopBits stopbit c2) as [c3|e]; [|discriminate].
  rewrite bind_emit.
  destruct (openPort _ _ _ _ _ _) as [comPort|err]; [|discriminate].
  rewrite !bind_modify, bind_emit, bind_modify, !bind_emit, bind_get,
    bind_modify, bind_emit, bind_log.
  simpl. rewrite app_nil_r. intros H. inversion H; subst; clear H.
  repeat split. eexists. reflexivity.
Qed.

Lemma Open_resets_buffer_witness :
  Buffer.Len (SerialPort.buff Sim.fresh) = 256 /\
  SerialPort.portIsOpen Sim.opened = true /\
  SerialPort.buff Sim.opened = Buffer.mk [] /\
  Available Sim.opened = (Ret 0, Sim.opened, []) /\
  exists cfg,
    snd (Open "COM1" 9600 "8" EmptyString "N" "1" Sim.fresh)
    = [EvOpenPort cfg; EvBuffReset; EvMakeChan;
       EvGo GoReadSerialPort; EvGo GoProcessSerialPort;
       EvSetPrefix (prefixOf "COM1")]
      ++ (if SerialPort.Verbose Sim.fresh
          then [EvLog (prefixOf "COM1") "Serial port %s@%d open"
                  [ArgS "COM1"; ArgI 9600]]
          else []).
Proof.
  split; [reflexivity|].
  apply (@Open_resets_buffer _ _ Sim.fresh Sim.opened "COM1" 9600 "8"
           EmptyString "N" "1").
  reflexivity.
Defined.

(** C9.  [Available] looks at the serial buffer only: in every state of
    the session, open or not, it returns the number of unread bytes and
    changes nothing.  A session just made by [New] is not open and has
    256 unread bytes, the zero-filled slice its buffer was built on. *)
Theorem Available_any_state
    {T} (sp : SerialPort.t T) (flag : bool) :
  Available sp = (Ret (length (Buffer.unread (SerialPort.buff sp))), sp, []) /\
  fst (fst (Available (SerialPort.set_portIsOpen flag sp)))
    = fst (fst (Available sp)) /\
  exists sp0 : SerialPort.t T,
    New None = Some sp0 /\
    SerialPort.portIsOpen sp0 = false /\
    Buffer.unread (SerialPort.buff sp0) = repeat x00 256 /\
    Available sp0 = (Ret 256, sp0, []).
Proof.
  split; [reflexivity|]. split; [reflexivity|].
  eexists. split; [reflexivity|]. repeat split.
Qed.

(* ------------------------------------------------------------------ *)
(** ** [Open], all of it *)

Lemma length_zero_empty (s : string) : String.length s = 0 -> s = EmptyString.
Proof. destruct s; [reflexivity | discriminate]. Qed.

(** The configuration [Open] has built when it comes to the parity:
    the name and the baud rate as given, everything else zero. *)
Lemma Open_first_config (name : string) (baud : Z) :
  (let serialCfg := zeroConfig in
   let serialCfg :=
     if negb (String.length name =? 0)
     then mkConfig name (Baud serialCfg) (ReadTimeout serialCfg) (Size serialCfg)
            (Parity_ serialCfg) (StopBits_ serialCfg)
     else serialCfg in
   if negb (baud =? 0)%Z
   then mkConfig (Name serialCfg) baud (ReadTimeout serialCfg) (Size serialCfg)
          (Parity_ serialCfg) (StopBits_ serialCfg)
   else serialCfg)
  = mkConfig name baud 0%Z x00 x00 x00.
Proof.
  cbv zeta. destruct (String.length name =? 0) eqn:Hn; simpl negb; cbv iota.
  - apply Nat.eqb_eq, length_zero_empty in Hn. subst name.
    destruct (Z.eqb_spec baud 0) as [->|_]; reflexivity.
  - destruct (Z.eqb_spec baud 0) as [->|_]; reflexivity.
Qed.

Section OpenRuns.

Context {T : Type} {PF : Platform T}.

(** What [Open] does on a closed session, case by case. *)
Lemma Open_closed_run (sp : SerialPort.t T) name baud databits timeout parity stopbit :
  SerialPort.portIsOpen sp = false ->
  Open name baud databits timeout parity stopbit sp
  = match parseParity parity (mkConfig name baud 0%Z x00 x00 x00) with
    | inr e => (Ret (Some e), sp, [])
    | inl c1 =>
    match parseTimeout timeout c1 with
    | inr e => (Ret (Some e), sp, [])
    | inl c2 =>
    match parseStopBits stopbit c2 with
    | inr e => (Ret (Some e), sp, [])
    | inl c3 =>
      let cfg := mkConfig (Name c3) (Baud c3) (ReadTimeout c3)
                   (parseDataBits databits) (Parity_ c3) (StopBits_ c3) in
      match openPort (Name c3) (Baud c3) (parseDataBits databits)
              (Parity_ c3) (StopBits_ c3) (ReadTimeout c3) with
      | inr err => (Ret (Some (ErrUnableToOpen name err)), sp, [EvOpenPort cfg])
      | inl comPort =>
          (Ret None,
           SerialPort.mk (Some comPort) name baud (SerialPort.eol sp) ChanOpen
             (Buffer.mk []) (mkLogger (prefixOf name)) true (SerialPort.Verbose sp),
           [EvOpenPort cfg; EvBuffReset; EvMakeChan;
            EvGo GoReadSerialPort; EvGo GoProcessSerialPort;
            EvSetPrefix (prefixOf name)]
           ++ (if SerialPort.Verbose sp
               then [EvLog (prefixOf name) "Serial port %s@%d open"
                       [ArgS name; ArgI baud]]
               else []))
      end
    end end end.
Proof.
  intros Hc. unfold Open. rewrite bind_get, Hc.
  rewrite Open_first_config.
  destruct (parseParity parity _) as [c1|e]; [|reflexivity].
  destruct (parseTimeout timeout c1) as [c2|e]; [|reflexivity].
  destruct (parseStopBits stopbit c2) as [c3|e]; [|reflexivity].
  cbv zeta. rewrite bind_emit.
  destruct (openPort _ _ _ _ _ _) as [comPort|err]; [|reflexivity].
  rewrite !bind_modify, bind_emit, bind_modify, !bind_emit, bind_get,
    bind_modify, bind_emit, bind_log.
  simpl. rewrite app_nil_r. reflexivity.
Qed.

End OpenRuns.

(** X1.  [Open] never panics, and when it returns an error, whichever it
    is, the session is as it was: flag, transport, buffer, delimiter,
    channel and logger prefix. *)
Theorem Open_error_keeps_session
    {T} {PF : Platform T} (sp sp' : SerialPort.t T) (name : string) (baud : Z)
    (databits timeout parity stopbit : string) (r : Res (option error))
    (evs : list Event) :
  Open name baud databits timeout parity stopbit sp = (r, sp', evs) ->
  (exists res, r = Ret res) /\
  (forall e, r = Ret (Some e) -> sp' = sp).
Proof.
  destruct (SerialPort.portIsOpen sp) eqn:Ho.
  - unfold Open. rewrite bind_get, Ho. intros H. inversion H; subst.
    split; [eexists; reflexivity | reflexivity].
  - rewrite Open_closed_run by exact Ho.
    destruct (parseParity parity _) as [c1|e1];
      [|intros H; inversion H; subst; split; [eexists|]; reflexivity].
    destruct (parseTimeout timeout c1) as [c2|e2];
      [|intros H; inversion H; subst; split; [eexists|]; reflexivity].
    destruct (parseStopBits stopbit c2) as [c3|e3];
      [|intros H; inversion H; subst; split; [eexists|]; reflexivity].
    cbv zeta. destruct (openPort _ _ _ _ _ _) as [comPort|err];
      intros H; inversion H; subst.
    + split; [eexists; reflexivity | discriminate].
    + split; [eexists|]; reflexivity.
Qed.

Lemma Open_error_keeps_session_witness :
  (exists res, Ret (Some ErrInvalidStopBits) = Ret res) /\
  (forall e, Ret (Some ErrInvalidStopBits) = Ret (Some e) -> Sim.fresh = Sim.fresh).
Proof.
  apply (@Open_error_keeps_session _ _ Sim.fresh Sim.fresh "COM1" 9600 "8"
           "1s" "E" "3" (Ret (Some ErrInvalidStopBits)) []).
  reflexivity.
Defined.

Section OpenChecks.

Context {T : Type} {PF : Platform T}.

Lemma parseParity_unknown parity cfg :
  String.length parity <> 0 ->
  knownParity parity = false ->
  parseParity parity cfg = inr ErrInvalidParity.
Proof.
  intros Hl Hk. unfold parseParity, knownParity in *.
  apply Nat.eqb_neq in Hl. rewrite Hl. simpl negb. cbv iota.
  destruct (String.eqb parity "N"); [discriminate|].
  destruct (String.eqb parity "O"); [discriminate|].
  destruct (String.eqb parity "E"); [discriminate|].
  destruct (String.eqb parity "M"); [discriminate|].
  destruct (String.eqb parity "S"); [discriminate|].
  reflexivity.
Qed.

Lemma parseParity_known parity cfg :
  parity = EmptyString \/ knownParity parity = true ->
  exists c,
    parseParity parity cfg = inl c /\
    Name c = Name cfg /\ Baud c = Baud cfg /\ ReadTimeout c = ReadTimeout cfg /\
    StopBits_ c = StopBits_ cfg.
Proof.
  intros [->|Hk].
  - exists cfg. repeat split.
  - unfold parseParity, knownParity in *.
    destruct (String.length parity =? 0); simpl negb; cbv iota;
      [exists cfg; repeat split|].
    destruct (String.eqb parity "N"); [eexists; repeat split|].
    destruct (String.eqb parity "O"); [eexists; repeat split|].
    destruct (String.eqb parity "E"); [eexists; repeat split|].
    destruct (String.eqb parity "M"); [eexists; repeat split|].
    destruct (String.eqb parity "S"); [eexists; repeat split|].
    discriminate.
Qed.

Lemma parseStopBits_unknown stopbit cfg :
  String.length stopbit <> 0 ->
  knownStopBits stopbit = false ->
  parseStopBits stopbit cfg = inr ErrInvalidStopBits.
Proof.
  intros Hl Hk. unfold parseStopBits, knownStopBits in *.
  apply Nat.eqb_neq in Hl. rewrite Hl. simpl negb. cbv iota.
  destruct (String.eqb stopbit "1"); [discriminate|].
  destruct (String.eqb stopbit "1.5"); [discriminate|].
  destruct (String.eqb stopbit "2"); [discriminate|].
  reflexivity.
Qed.

Lemma parseTimeout_bad timeout cfg e :
  String.length timeout <> 0 ->
  ParseDuration timeout = inr e ->
  parseTimeout timeout cfg = inr ErrInvalidTimeout.
Proof.
  intros Hl Hp. unfold parseTimeout.
  apply Nat.eqb_neq in Hl. rewrite Hl, Hp. reflexivity.
Qed.

Lemma parseTimeout_good timeout cfg :
  timeout = EmptyString \/ (exists d, ParseDuration timeout = inl d) ->
  exists c, parseTimeout timeout cfg = inl c.
Proof.
  intros [->|[d Hd]]; unfold parseTimeout.
  - exists cfg. reflexivity.
  - destruct (String.length timeout =? 0); simpl negb; cbv iota.
    + exists cfg. reflexivity.
    + rewrite Hd. eexists. reflexivity.
Qed.

End OpenChecks.

(** X2.  [Open] checks its arguments in the order parity, timeout, stop
    bits, and stops at the first one it refuses: an unknown parity is
    reported whatever the timeout and the stop bits are, a timeout that
    does not parse whatever the stop bits are.  In each case the port
    is not asked for and the session is untouched. *)
Theorem Open_checks_in_order
    {T} {PF : Platform T} (sp : SerialPort.t T) (name : string) (baud : Z)
    (databits timeout parity stopbit : string) :
  SerialPort.portIsOpen sp = false ->
  (String.length parity <> 0 -> knownParity parity = false ->
   Open name baud databits timeout parity stopbit sp
   = (Ret (Some ErrInvalidParity), sp, [])) /\
  (parity = EmptyString \/ knownParity parity = true ->
   String.length timeout <> 0 ->
   (exists e, ParseDuration timeout = inr e) ->
   Open name baud databits timeout parity stopbit sp
   = (Ret (Some ErrInvalidTimeout), sp, [])) /\
  (parity = EmptyString \/ knownParity parity = true ->
   timeout = EmptyString \/ (exists d, ParseDuration timeout = inl d) ->
   String.length stopbit <> 0 -> knownStopBits stopbit = false ->
   Open name baud databits timeout parity stopbit sp
   = (Ret (Some ErrInvalidStopBits), sp, [])).
Proof.
  intros Hc. rewrite (Open_closed_run _ _ _ _ _ _ _ Hc). repeat split.
  - intros Hl Hk. rewrite parseParity_unknown by assumption. reflexivity.
  - intros Hp Hl [e He].
    destruct (parseParity_known (mkConfig name baud 0%Z x00 x00 x00) Hp)
      as (c1 & -> & _).
    erewrite parseTimeout_bad by eassumption. reflexivity.
  - intros Hp Ht Hl Hk.
    destruct (parseParity_known (mkConfig name baud 0%Z x00 x00 x00) Hp)
      as (c1 & -> & _).
    destruct (parseTimeout_good c1 Ht) as (c2 & ->).
    rewrite parseStopBits_unknown by assumption. reflexivity.
Qed.

Lemma Open_checks_in_order_witness :
  Open "COM1" 9600 "8" "soon" "odd" "3" Sim.fresh
    = (Ret (Some ErrInvalidParity), Sim.fresh, []) /\
  Open "COM1" 9600 "8" "soon" "O" "3" Sim.fresh
    = (Ret (Some ErrInvalidTimeout), Sim.fresh, []) /\
  Open "COM1" 9600 "8" "2s" "O" "3" Sim.fresh
    = (Ret (Some ErrInvalidStopBits), Sim.fresh, []).
Proof.
  split; [|split].
  - apply (proj1 (@Open_checks_in_order _ _ Sim.fresh "COM1" 9600 "8" "soon" "odd" "3"
                    eq_refl)); [discriminate | reflexivity].
  - apply (proj1 (proj2 (@Open_checks_in_order _ _ Sim.fresh "COM1" 9600 "8"
                           "soon" "O" "3" eq_refl))).
    + right. reflexivity.
    + discriminate.
    + eexists. reflexivity.
  - apply (proj2 (proj2 (@Open_checks_in_order _ _ Sim.fresh "COM1" 9600 "8"
                           "2s" "O" "3" eq_refl))).
    + right. reflexivity.
    + right. eexists. reflexivity.
    + discriminate.
    + reflexivity.
Defined.

Section OpenConfig.

Context {T : Type} {PF : Platform T}.

Lemma parseParity_keeps parity cfg c :
  parseParity parity cfg = inl c -> Name c = Name cfg /\ Baud c = Baud cfg.
Proof.
  unfold parseParity.
  repeat match goal with
         | |- context [if ?b then _ else _] => destruct b
         end; intros H; inversion H; subst; split; reflexivity.
Qed.

Lemma parseTimeout_keeps timeout cfg c :
  parseTimeout timeout cfg = inl c -> Name c = Name cfg /\ Baud c = Baud cfg.
Proof.
  unfold parseTimeout.
  destruct (negb (String.length timeout =? 0)).
  - destruct (ParseDuration timeout); intros H; inversion H; subst; split; reflexivity.
  - intros H; inversion H; subst; split; reflexivity.
Qed.

Lemma parseStopBits_keeps stopbit cfg c :
  parseStopBits stopbit cfg = inl c -> Name c = Name cfg /\ Baud c = Baud cfg.
Proof.
  unfold parseStopBits.
  repeat match goal with
         | |- context [if ?b then _ else _] => destruct b
         end; intros H; inversion H; subst; split; reflexivity.
Qed.

End OpenConfig.

(** X3.  When [Open] returns nil the session was closed before, and now
    carries the name and baud rate given, the transport [openPort]
    returned for them, a fresh channel and the name as logger prefix;
    the delimiter and the verbosity are the ones set before.  The port
    was asked for once, first thing, with the name and baud rate as
    given and the data bits of [databits]. *)
Theorem Open_success_state
    {T} {PF : Platform T} (sp sp' : SerialPort.t T) (name : string) (baud : Z)
    (databits timeout parity stopbit : string) (evs : list Event) :
  Open name baud databits timeout parity stopbit sp = (Ret None, sp', evs) ->
  SerialPort.portIsOpen sp = false /\
  SerialPort.name sp' = name /\
  SerialPort.baud sp' = baud /\
  SerialPort.eol sp' = SerialPort.eol sp /\
  SerialPort.Verbose sp' = SerialPort.Verbose sp /\
  SerialPort.rxChar sp' = ChanOpen /\
  SerialPort.logger sp' = mkLogger (prefixOf name) /\
  exists cfg comPort,
    SerialPort.port sp' = Some comPort /\
    openPort (Name cfg) (Baud cfg) (Size cfg) (Parity_ cfg) (StopBits_ cfg)
      (ReadTimeout cfg) = inl comPort /\
    Name cfg = name /\ Baud cfg = baud /\ Size cfg = parseDataBits databits /\
    hd_error evs = Some (EvOpenPort cfg).
Proof.
  destruct (SerialPort.portIsOpen sp) eqn:Ho.
  - unfold Open. rewrite bind_get, Ho. discriminate.
  - rewrite Open_closed_run by exact Ho.
    destruct (parseParity parity _) as [c1|e1] eqn:H1; [|discriminate].
    destruct (parseTimeout timeout c1) as [c2|e2] eqn:H2; [|discriminate].
    destruct (parseStopBits stopbit c2) as [c3|e3] eqn:H3; [|discriminate].
    cbv zeta. destruct (openPort _ _ _ _ _ _) as [comPort|err] eqn:Hop;
      [|discriminate].
    intros H. inversion H; subst; clear H.
    apply parseParity_keeps in H1. apply parseTimeout_keeps in H2.
    apply parseStopBits_keeps in H3. simpl in H1.
    destruct H1 as [N1 B1], H2 as [N2 B2], H3 as [N3 B3].
    repeat split.
    exists (mkConfig (Name c3) (Baud c3) (ReadTimeout c3) (parseDataBits databits)
              (Parity_ c3) (StopBits_ c3)), comPort.
    simpl. repeat split; try congruence.
Qed.

Lemma Open_success_state_witness :
  SerialPort.portIsOpen Sim.fresh = false /\
  SerialPort.name Sim.opened = "COM1"%string /\
  SerialPort.baud Sim.opened = 9600%Z /\
  SerialPort.eol Sim.opened = SerialPort.eol Sim.fresh /\
  SerialPort.Verbose Sim.opened = SerialPort.Verbose Sim.fresh /\
  SerialPort.rxChar Sim.opened = ChanOpen /\
  SerialPort.logger Sim.opened = mkLogger (prefixOf "COM1") /\
  exists cfg comPort,
    SerialPort.port Sim.opened = Some comPort /\
    openPort (Name cfg) (Baud cfg) (Size cfg) (Parity_ cfg) (StopBits_ cfg)
      (ReadTimeout cfg) = inl comPort /\
    Name cfg = "COM1"%string /\ Baud cfg = 9600%Z /\ Size cfg = parseDataBits "8" /\
    hd_error (snd (Open "COM1" 9600 "8" EmptyString "N" "1" Sim.fresh))
      = Some (EvOpenPort cfg).
Proof.
  apply (@Open_success_state _ _ Sim.fresh Sim.opened "COM1" 9600 "8"
           EmptyString "N" "1").
  reflexivity.
Defined.

(** X4.  Left empty, the parity, the stop bits and the timeout are not
    replaced by a default: [openPort] is asked with the parity byte 0,
    the stop bits 0 and no timeout.  The data bits are 8 unless
    [databits] is 5, 6 or 7; no text is refused. *)
Theorem Open_empty_options
    {T} {PF : Platform T} (sp : SerialPort.t T) (name : string) (baud : Z)
    (databits : string) :
  SerialPort.portIsOpen sp = false ->
  hd_error (snd (Open name baud databits EmptyString EmptyString EmptyString sp))
    = Some (EvOpenPort (mkConfig name baud 0%Z (parseDataBits databits) x00 x00)) /\
  (databits <> "5"%string -> databits <> "6"%string -> databits <> "7"%string ->
   parseDataBits databits = DefaultSize).
Proof.
  intros Hc. split.
  - rewrite Open_closed_run by exact Hc. simpl.
    destruct (openPort _ _ _ _ _ _); reflexivity.
  - intros H5 H6 H7. unfold parseDataBits.
    destruct (String.eqb_spec databits "5"); [contradiction|].
    destruct (String.eqb_spec databits "6"); [contradiction|].
    destruct (String.eqb_spec databits "7"); [contradiction|].
    destruct (String.eqb databits "8"); reflexivity.
Qed.

Lemma Open_empty_options_witness :
  hd_error (snd (Open "COM1" 9600 "nine" EmptyString EmptyString EmptyString Sim.fresh))
    = Some (EvOpenPort (mkConfig "COM1" 9600 0%Z (parseDataBits "nine") x00 x00)) /\
  parseDataBits "nine" = DefaultSize.
Proof.
  destruct (@Open_empty_options _ _ Sim.fresh "COM1" 9600 "nine" eq_refl) as [H1 H2].
  split; [exact H1|]. apply H2; discriminate.
Defined.

(* ------------------------------------------------------------------ *)
(** ** [Close] and what comes after *)

Lemma port_Close_run {T} {RWC : ReadWriteCloser T} (sp : SerialPort.t T) t :
  SerialPort.port sp = Some t ->
  port_Close sp
  = (Ret (fst (rwc_Close t)),
     SerialPort.set_port (Some (snd (rwc_Close t))) sp, [EvPortClose]).
Proof.
  intros H. unfold port_Close. rewrite H.
  destruct (rwc_Close t) as [r t']. reflexivity.
Qed.

Lemma Close_open_run
    {T} {RWC : ReadWriteCloser T} (sp : SerialPort.t T) (t : T) :
  SerialPort.portIsOpen sp = true ->
  SerialPort.rxChar sp = ChanOpen ->
  SerialPort.port sp = Some t ->
  Close sp
  = (Ret (fst (rwc_Close t)),
     SerialPort.mk (Some (snd (rwc_Close t))) (SerialPort.name sp)
       (SerialPort.baud sp) (SerialPort.eol sp) ChanClosed (SerialPort.buff sp)
       (SerialPort.logger sp) false (SerialPort.Verbose sp),
     [EvCloseChan]
     ++ (if SerialPort.Verbose sp
         then [EvLog (prefix (SerialPort.logger sp)) "Serial port %s closed"
                 [ArgS (SerialPort.name sp)]]
         else [])
     ++ [EvPortClose]).
Proof.
  intros Ho Hc Hp. unfold Close. rewrite bind_get, Ho, bind_modify.
  erewrite bind_run
    by (rewrite close_rxChar_run; simpl SerialPort.rxChar; rewrite Hc; reflexivity).
  rewrite bind_log.
  erewrite port_Close_run by (simpl; exact Hp).
  simpl. reflexivity.
Qed.

(** X5.  [Close] on an open session with its channel and transport in
    place: the channel is closed, then the transport, once, and its
    answer is what [Close] returns.  The bytes still buffered are kept,
    and [Available] goes on counting them, but [Read] now refuses. *)
Theorem Close_open_session
    {T} {RWC : ReadWriteCloser T} (sp : SerialPort.t T) (t : T) :
  SerialPort.portIsOpen sp = true ->
  SerialPort.rxChar sp = ChanOpen ->
  SerialPort.port sp = Some t ->
  fst (fst (Close sp)) = Ret (fst (rwc_Close t)) /\
  snd (Close sp)
  = [EvCloseChan]
    ++ (if SerialPort.Verbose sp
        then [EvLog (prefix (SerialPort.logger sp)) "Serial port %s closed"
                [ArgS (SerialPort.name sp)]]
        else [])
    ++ [EvPortClose] /\
  SerialPort.rxChar (snd (fst (Close sp))) = ChanClosed /\
  SerialPort.port (snd (fst (Close sp))) = Some (snd (rwc_Close t)) /\
  SerialPort.buff (snd (fst (Close sp))) = SerialPort.buff sp /\
  fst (fst (Available (snd (fst (Close sp)))))
    = Ret (length (Buffer.unread (SerialPort.buff sp))) /\
  fst (fst (Read (snd (fst (Close sp))))) = Ret (x00, Some ErrNotOpen).
Proof.
  intros Ho Hc Hp.
  rewrite (Close_open_run sp Ho Hc Hp).
  split; [reflexivity|]. split; [reflexivity|]. split; [reflexivity|].
  split; [reflexivity|]. split; [reflexivity|]. split; [reflexivity|].
  rewrite Read_closed by reflexivity. reflexivity.
Qed.

Lemma Close_open_session_witness :
  fst (fst (Close (Sim.holding LF [x3e]))) = Ret None /\
  SerialPort.buff (snd (fst (Close (Sim.holding LF [x3e])))) = Buffer.mk [x3e] /\
  fst (fst (Available (snd (fst (Close (Sim.holding LF [x3e])))))) = Ret 1 /\
  fst (fst (Read (snd (fst (Close (Sim.holding LF [x3e]))))))
    = Ret (x00, Some ErrNotOpen).
Proof.
  destruct (@Close_open_session _ _ (Sim.holding LF [x3e]) (Sim.mkPort [] [] false)
              eq_refl eq_refl eq_refl)
    as (H1 & _ & _ & _ & H5 & H6 & H7).
  split; [exact H1|]. split; [exact H5|]. split; [exact H6|]. exact H7.
Defined.



(** X7.  After [Close], however it ended, the session answers [Read],
    [ReadLine], [Write], [Print], [Println] and [WaitForRegexTimeout]
    with the not-open error and does nothing. *)
Theorem closed_after_Close
    {T} {RWC : ReadWriteCloser T} {RE : RegexpEngine}
    (sp : SerialPort.t T) (data : list byte) (str exp : string)
    (timeout : Duration) (sched : list (list byte)) :
  let sp1 := snd (fst (Close sp)) in
  Read sp1 = (Ret (x00, Some ErrNotOpen), sp1, []) /\
  ReadLine sp1 = (Ret ([], Some ErrNotOpen), sp1, []) /\
  Write data sp1 = (Ret (0, Some ErrNotOpen), sp1, []) /\
  Print str sp1 = (Ret (Some ErrNotOpen), sp1, []) /\
  Println str sp1 = (Ret (Some ErrNotOpen), sp1, []) /\
  WaitForRegexTimeout exp timeout sched sp1 = (Ret ([], Some ErrNotOpen), sp1, []).
Proof.
  intros sp1. pose proof (Close_clears_flag sp) as Hc. fold sp1 in Hc.
  split; [apply Read_closed; exact Hc|].
  split; [apply ReadLine_closed; exact Hc|].
  split; [apply Write_closed; exact Hc|].
  split; [apply Print_closed; exact Hc|].
  split; [apply Println_closed; exact Hc|].
  apply WaitForRegexTimeout_closed; exact Hc.
Qed.

(* ------------------------------------------------------------------ *)
(** ** Writing *)

Lemma list_byte_of_string_append (a b : string) :
  list_byte_of_string (String.append a b)
  = list_byte_of_string a ++ list_byte_of_string b.
Proof.
  induction a as [|c a IH]; simpl.
  - reflexivity.
  - unfold list_byte_of_string in *. simpl. rewrite IH. reflexivity.
Qed.

Section Writing.

Context {T : Type} {RWC : ReadWriteCloser T}.

Lemma Print_open (sp : SerialPort.t T) t str :
  SerialPort.portIsOpen sp = true ->
  SerialPort.port sp = Some t ->
  Print str sp
  = (Ret (snd (fst (rwc_Write t (list_byte_of_string str)))),
     SerialPort.set_port (Some (snd (rwc_Write t (list_byte_of_string str)))) sp,
     EvPortWrite (list_byte_of_string str)
     :: match snd (fst (rwc_Write t (list_byte_of_string str))) with
        | Some _ => []
        | None =>
            if SerialPort.Verbose sp
            then [EvLog (prefix (SerialPort.logger sp)) "Tx >> %s" [ArgS str]]
            else []
        end).
Proof.
  intros Ho Hp. unfold Print. rewrite bind_get, Ho.
  erewrite bind_run by (apply port_Write_run; exact Hp).
  destruct (rwc_Write t (list_byte_of_string str)) as [[n [e|]] t']; simpl.
  - reflexivity.
  - rewrite bind_log. simpl. rewrite app_nil_r. reflexivity.
Qed.

End Writing.

(** X8.  [Write] on an open session is one call of the transport's write
    with the data as given; the count and the error it returns are the
    transport's, whatever they are, and a line is logged only when the
    error is nil. *)
Theorem Write_open_session
    {T} {RWC : ReadWriteCloser T} (sp : SerialPort.t T) (t : T) (data : list byte) :
  SerialPort.portIsOpen sp = true ->
  SerialPort.port sp = Some t ->
  Write data sp
  = (Ret (fst (rwc_Write t data)),
     SerialPort.set_port (Some (snd (rwc_Write t data))) sp,
     EvPortWrite data
     :: match snd (fst (rwc_Write t data)) with
        | Some _ => []
        | None =>
            if SerialPort.Verbose sp
            then [EvLog (prefix (SerialPort.logger sp)) "Tx >> %s" [ArgB data]]
            else []
        end).
Proof.
  intros Ho Hp. unfold Write. rewrite bind_get, Ho.
  erewrite bind_run by (apply port_Write_run; exact Hp).
  destruct (rwc_Write t data) as [[n [e|]] t']; simpl.
  - reflexivity.
  - rewrite bind_log. simpl. rewrite app_nil_r. reflexivity.
Qed.

Lemma Write_open_session_witness :
  Write [x41; x54] Sim.opened
  = (Ret (2, None),
     SerialPort.set_port (Some (Sim.mkPort [[x41; x54]] [] false)) Sim.opened,
     [EvPortWrite [x41; x54]; EvLog "[COM1] " "Tx >> %s" [ArgB [x41; x54]]]).
Proof.
  refine (eq_trans
            (@Write_open_session _ _ Sim.opened (Sim.mkPort [] [] false)
               [x41; x54] eq_refl eq_refl) _).
  reflexivity.
Defined.

(** X9.  [Println] hands the transport, in one write, the bytes of the text
    followed by carriage return and newline, and returns the error of
    that write. *)
Theorem Println_appends_CRLF
    {T} {RWC : ReadWriteCloser T} (sp : SerialPort.t T) (t : T) (str : string) :
  SerialPort.portIsOpen sp = true ->
  SerialPort.port sp = Some t ->
  writes (snd (Println str sp)) = [list_byte_of_string str ++ [CR; LF]] /\
  fst (fst (Println str sp))
  = Ret (snd (fst (rwc_Write t (list_byte_of_string str ++ [CR; LF])))).
Proof.
  intros Ho Hp. unfold Println.
  rewrite (Print_open _ _ Ho Hp), list_byte_of_string_append.
  change (list_byte_of_string (String "013" (String "010" EmptyString)))
    with [CR; LF].
  split; [|reflexivity].
  simpl snd. simpl writes.
  destruct (snd (fst (rwc_Write t _))); [reflexivity|].
  destruct (SerialPort.Verbose sp); reflexivity.
Qed.

Lemma Println_appends_CRLF_witness :
  writes (snd (Println "AT" Sim.opened)) = [list_byte_of_string "AT" ++ [CR; LF]] /\
  fst (fst (Println "AT" Sim.opened))
  = Ret (snd (fst (rwc_Write (Sim.mkPort [] [] false)
                     (list_byte_of_string "AT" ++ [CR; LF])))).
Proof.
  apply (@Println_appends_CRLF _ _ Sim.opened (Sim.mkPort [] [] false) "AT");
    reflexivity.
Defined.

(** X10.  [Printf] formats only when it is given arguments: without any, the
    format goes to the transport as it stands, verbs included; with
    some, what [fmt.Sprintf] makes of them does.  On a closed session
    it returns the not-open error either way. *)
Theorem Printf_formats_with_arguments
    {T} {RWC : ReadWriteCloser T} (sp : SerialPort.t T) (t : T)
    (Sprintf : string -> list arg -> string) (format : string)
    (a : arg) (args : list arg) :
  (SerialPort.portIsOpen sp = true ->
   SerialPort.port sp = Some t ->
   writes (snd (Printf Sprintf format [] sp)) = [list_byte_of_string format] /\
   writes (snd (Printf Sprintf format (a :: args) sp))
   = [list_byte_of_string (Sprintf format (a :: args))]) /\
  (SerialPort.portIsOpen sp = false ->
   Printf Sprintf format (a :: args) sp = (Ret (Some ErrNotOpen), sp, [])).
Proof.
  split.
  - intros Ho Hp. unfold Printf. simpl Nat.ltb. cbv zeta iota.
    rewrite !(Print_open _ _ Ho Hp). simpl snd. simpl writes.
    split.
    + destruct (snd (fst (rwc_Write t _))); [reflexivity|].
      destruct (SerialPort.Verbose sp); reflexivity.
    + destruct (snd (fst (rwc_Write t _))); [reflexivity|].
      destruct (SerialPort.Verbose sp); reflexivity.
  - intros Hc. unfold Printf. apply Print_closed. exact Hc.
Qed.

Lemma Printf_formats_with_arguments_witness :
  writes (snd (Printf (fun f _ => f) "AT%d" [] Sim.opened))
    = [list_byte_of_string "AT%d"] /\
  Printf (fun f _ => f) "AT%d" [ArgI 1] Sim.fresh
    = (Ret (Some ErrNotOpen), Sim.fresh, []).
Proof.
  split.
  - apply (proj1 (@Printf_formats_with_arguments _ _ Sim.opened
                    (Sim.mkPort [] [] false) (fun f _ => f) "AT%d" (ArgI 1) []));
      reflexivity.
  - apply (proj2 (@Printf_formats_with_arguments _ _ Sim.fresh
                    (Sim.mkPort [] [] false) (fun f _ => f) "AT%d" (ArgI 1) [])).
    reflexivity.
Defined.

(* ------------------------------------------------------------------ *)
(** ** [SendFile] on any transport *)

Lemma writes_log_line (v : bool) pre format a :
  writes (if v then [EvLog pre format a] else []) = [].
Proof. destruct v; reflexivity. Qed.

Lemma sleeps_log_line (v : bool) pre format a :
  sleeps (if v then [EvLog pre format a] else []) = [].
Proof. destruct v; reflexivity. Qed.

Lemma sleeps_app e1 e2 : sleeps (e1 ++ e2) = sleeps e1 ++ sleeps e2.
Proof. unfold sleeps. apply flat_map_app. Qed.

Section SendAny.

Context {T : Type} {RWC : ReadWriteCloser T} {PF : Platform T}.

(** One pass of the loop with a transport in place. *)
Lemma sendLoop_some fuel (file : list byte) n (sp : SerialPort.t T) t :
  n <= length file ->
  SerialPort.port sp = Some t ->
  sendLoop (S fuel) file n sp
  = match snd (fst (rwc_Write t (chunk file n))) with
    | Some e =>
        (Ret (Some e),
         SerialPort.set_port (Some (snd (rwc_Write t (chunk file n)))) sp,
         EvPortWrite (chunk file n)
         :: (if SerialPort.Verbose sp
             then [EvLog (prefix (SerialPort.logger sp)) "DBG >> %s"
                     [ArgS "Error while sending the file"]]
             else []))
    | None =>
        prepend [EvPortWrite (chunk file n); EvSleep 100]
          (sendLoop fuel file (n + q)
             (SerialPort.set_port (Some (snd (rwc_Write t (chunk file n)))) sp))
    end.
Proof.
  intros Hle Hp. rewrite sendLoop_pass by assumption.
  erewrite bind_run by (apply port_Write_run; exact Hp).
  destruct (snd (fst (rwc_Write t (chunk file n)))).
  - rewrite bind_log. simpl. rewrite app_nil_r. reflexivity.
  - rewrite bind_emit, prepend_prepend. reflexivity.
Qed.

Lemma sendLoop_nil_port fuel (file : list byte) n (sp : SerialPort.t T) :
  n <= length file ->
  SerialPort.port sp = None ->
  sendLoop (S fuel) file n sp = (Panic NilDereference, sp, []).
Proof.
  intros Hle Hp. rewrite sendLoop_pass by assumption.
  erewrite bind_panic by (apply port_Write_nil; exact Hp). reflexivity.
Qed.

Lemma sendLoop_stuck (file : list byte) n (sp : SerialPort.t T) :
  n <= length file -> sendLoop 0 file n sp = (OutOfFuel, sp, []).
Proof. intros H. apply Nat.leb_le in H. simpl. rewrite H. reflexivity. Qed.

(** Where the writes of the loop come from in the file. *)
Lemma sendLoop_positions (file : list byte) fuel :
  forall n (sp : SerialPort.t T) i d,
    nth_error (writes (snd (sendLoop fuel file n sp))) i = Some d ->
    d = chunk file (n + i * q) /\ n + i * q <= length file.
Proof.
  induction fuel as [|fuel IH]; intros n sp i d.
  - destruct (Nat.le_gt_cases n (length file)) as [Hle|Hgt].
    + rewrite sendLoop_stuck by assumption. simpl. destruct i; discriminate.
    + rewrite sendLoop_done by assumption. simpl. destruct i; discriminate.
  - destruct (Nat.le_gt_cases n (length file)) as [Hle|Hgt].
    + destruct (SerialPort.port sp) as [t|] eqn:Hp.
      * rewrite (@sendLoop_some fuel file n sp t Hle Hp).
        destruct (snd (fst (rwc_Write t (chunk file n)))).
        -- simpl snd. simpl writes. rewrite writes_log_line.
           destruct i as [|[|i]]; simpl; intros H; inversion H; subst.
           rewrite Nat.add_0_r. split; [reflexivity | assumption].
        -- rewrite events_prepend, writes_app. simpl app.
           destruct i as [|i]; simpl nth_error; intros H.
           ++ inversion H; subst. rewrite Nat.add_0_r.
              split; [reflexivity | assumption].
           ++ apply IH in H. rewrite Nat.mul_succ_l.
              replace (n + (i * q + q)) with (n + q + i * q) by lia.
              exact H.
      * rewrite sendLoop_nil_port by assumption. simpl. destruct i; discriminate.
    + rewrite sendLoop_done by assumption. simpl. destruct i; discriminate.
Qed.

(** The pauses of the loop against its writes. *)
Lemma sendLoop_pauses (file : list byte) fuel :
  forall n (sp : SerialPort.t T),
    Forall (eq 100) (sleeps (snd (sendLoop fuel file n sp))) /\
    (fst (fst (sendLoop fuel file n sp)) = Ret None ->
     length (sleeps (snd (sendLoop fuel file n sp)))
     = length (writes (snd (sendLoop fuel file n sp)))) /\
    (forall e, fst (fst (sendLoop fuel file n sp)) = Ret (Some e) ->
     length (writes (snd (sendLoop fuel file n sp)))
     = S (length (sleeps (snd (sendLoop fuel file n sp))))).
Proof.
  induction fuel as [|fuel IH]; intros n sp.
  - destruct (Nat.le_gt_cases n (length file)) as [Hle|Hgt].
    + rewrite sendLoop_stuck by assumption. simpl.
      split; [constructor | split; [discriminate | discriminate]].
    + rewrite sendLoop_done by assumption. simpl.
      split; [constructor | split; [reflexivity | discriminate]].
  - destruct (Nat.le_gt_cases n (length file)) as [Hle|Hgt].
    + destruct (SerialPort.port sp) as [t|] eqn:Hp.
      * rewrite (@sendLoop_some fuel file n sp t Hle Hp).
        destruct (snd (fst (rwc_Write t (chunk file n)))).
        -- simpl fst. simpl snd. simpl writes. simpl sleeps.
           rewrite writes_log_line, sleeps_log_line. simpl.
           split; [constructor | split; [discriminate | reflexivity]].
        -- rewrite result_prepend, events_prepend, writes_app, sleeps_app.
           simpl app.
           destruct (IH (n + q)
                       (SerialPort.set_port
                          (Some (snd (rwc_Write t (chunk file n)))) sp))
             as (Hall & Hok & Herr).
           split; [|split].
           ++ constructor; [reflexivity | exact Hall].
           ++ intros H. simpl. f_equal. apply Hok. exact H.
           ++ intros e H. simpl. f_equal. apply (Herr e). exact H.
      * rewrite sendLoop_nil_port by assumption. simpl.
        split; [constructor | split; [discriminate | discriminate]].
    + rewrite sendLoop_done by assumption. simpl.
      split; [constructor | split; [reflexivity | discriminate]].
Qed.

End SendAny.

(** X11.  A file that cannot be read: [SendFile] returns the error of
    [ioutil.ReadFile] and touches neither the transport nor the
    session, open or not. *)
Theorem SendFile_unreadable
    {T} {RWC : ReadWriteCloser T} {PF : Platform T}
    (sp : SerialPort.t T) (filepath : string) (err : error) :
  ReadFile filepath = inr err ->
  SendFile filepath sp
  = (Ret (Some err), sp,
     if SerialPort.Verbose sp
     then [EvLog (prefix (SerialPort.logger sp)) "DBG >> %s" [ArgS "Invalid filepath"]]
     else []).
Proof.
  intros Hf. unfold SendFile. rewrite Hf, bind_log. simpl.
  rewrite app_nil_r. reflexivity.
Qed.

Lemma SendFile_unreadable_witness :
  SendFile "nowhere.bin" Sim.fresh
  = (Ret (Some (ErrExternal "no such file or directory")), Sim.fresh,
     if SerialPort.Verbose Sim.fresh
     then [EvLog (prefix (SerialPort.logger Sim.fresh)) "DBG >> %s"
             [ArgS "Invalid filepath"]]
     else []).
Proof.
  apply (@SendFile_unreadable _ _ _ Sim.fresh "nowhere.bin"). reflexivity.
Defined.

(** X12.  Whatever the transport answers and however the run ends, the write
    number [i] of [SendFile] (counting from 0) is the 512 bytes of the
    file from offset [512 * i], or what is left of the file from
    there; no write starts past the end of the file. *)
Theorem SendFile_write_positions
    {T} {RWC : ReadWriteCloser T} {PF : Platform T}
    (sp : SerialPort.t T) (filepath : string) (file : list byte)
    (i : nat) (d : list byte) :
  ReadFile filepath = inl file ->
  nth_error (writes (snd (SendFile filepath sp))) i = Some d ->
  d = firstn 512 (skipn (i * 512) file) /\ i * 512 <= length file.
Proof.
  intros Hf. unfold SendFile. rewrite Hf, bind_log, events_prepend, writes_app.
  rewrite writes_log_line, app_nil_l. intros H.
  apply sendLoop_positions in H. exact H.
Qed.

Lemma SendFile_write_positions_witness :
  repeat x55 512 = firstn 512 (skipn (1 * 512) (repeat x55 1024)) /\
  1 * 512 <= length (repeat x55 1024).
Proof.
  apply (@SendFile_write_positions _ _ _ Sim.opened "1k.bin" (repeat x55 1024) 1
           (repeat x55 512)).
  - reflexivity.
  - vm_compute. reflexivity.
Defined.

(** X13.  The pacing of [SendFile] on a readable file: every pause is of 100
    milliseconds; when it returns nil there is one pause for each write,
    the last write included; when it returns an error the failed write
    is the last thing done, with no pause after it. *)
Theorem SendFile_pacing
    {T} {RWC : ReadWriteCloser T} {PF : Platform T}
    (sp : SerialPort.t T) (filepath : string) (file : list byte) :
  ReadFile filepath = inl file ->
  Forall (eq 100) (sleeps (snd (SendFile filepath sp))) /\
  (fst (fst (SendFile filepath sp)) = Ret None ->
   length (sleeps (snd (SendFile filepath sp)))
   = length (writes (snd (SendFile filepath sp)))) /\
  (forall e, fst (fst (SendFile filepath sp)) = Ret (Some e) ->
   length (writes (snd (SendFile filepath sp)))
   = S (length (sleeps (snd (SendFile filepath sp))))).
Proof.
  intros Hf. unfold SendFile. rewrite Hf, bind_log.
  rewrite result_prepend, events_prepend, writes_app, sleeps_app.
  rewrite writes_log_line, sleeps_log_line, !app_nil_l.
  apply sendLoop_pauses.
Qed.

Lemma SendFile_pacing_witness :
  length (sleeps (snd (SendFile "1k.bin" Sim.opened))) = 3 /\
  length (writes (snd (SendFile "abc.bin" Sim.shut))) = 1.
Proof.
  split.
  - destruct (@SendFile_pacing _ _ _ Sim.opened "1k.bin" (repeat x55 1024))
      as (_ & Hok & _); [reflexivity|].
    rewrite Hok by reflexivity. vm_compute. reflexivity.
  - destruct (@SendFile_pacing _ _ _ Sim.shut "abc.bin" [x61; x62; x63])
      as (_ & _ & Herr); [reflexivity|].
    rewrite (Herr Sim.errClosed) by reflexivity. vm_compute. reflexivity.
Defined.

(* ------------------------------------------------------------------ *)
(** ** Reading *)

Section Reading.

Context {T : Type} {RWC : ReadWriteCloser T}.

Lemma buffer_as_is (sp : SerialPort.t T) data :
  Buffer.unread (SerialPort.buff sp) = data ->
  SerialPort.set_buff (Buffer.mk data) sp = sp.
Proof. intros <-. destruct sp as [? ? ? ? ? [u] ? ? ?]. reflexivity. Qed.

Lemma Read_byte (sp : SerialPort.t T) c rest :
  SerialPort.portIsOpen sp = true ->
  Buffer.unread (SerialPort.buff sp) = c :: rest ->
  Read sp = (Ret (c, None), SerialPort.set_buff (Buffer.mk rest) sp, []).
Proof.
  intros Ho Hb. unfold Read. rewrite bind_get, Ho.
  unfold Buffer.ReadByte. rewrite Hb. rewrite bind_modify. reflexivity.
Qed.

Lemma Read_empty (sp : SerialPort.t T) :
  SerialPort.portIsOpen sp = true ->
  Buffer.unread (SerialPort.buff sp) = [] ->
  Read sp = (Ret (x00, Some io_EOF), SerialPort.set_buff (Buffer.mk []) sp, []).
Proof.
  intros Ho Hb. unfold Read. rewrite bind_get, Ho.
  unfold Buffer.ReadByte. rewrite Hb. rewrite bind_modify. reflexivity.
Qed.

Lemma Read_all data :
  forall sp : SerialPort.t T,
    SerialPort.portIsOpen sp = true ->
    Buffer.unread (SerialPort.buff sp) = data ->
    times (length data) Read sp
    = (Ret (map (fun c => (c, None)) data),
       SerialPort.set_buff (Buffer.mk []) sp, []).
Proof.
  induction data as [|c data IH]; intros sp Ho Hb.
  - simpl. unfold ret. rewrite (buffer_as_is sp Hb). reflexivity.
  - simpl times.
    erewrite bind_run by (apply Read_byte; eassumption).
    rewrite prepend_nil.
    erewrite bind_run by (apply IH; [exact Ho | reflexivity]).
    rewrite prepend_nil. reflexivity.
Qed.

Lemma forward_run bs (sp : SerialPort.t T) :
  forward bs sp
  = (Ret tt, sp, if SerialPort.portIsOpen sp then map EvSend bs else []).
Proof.
  induction bs as [|b bs IH]; simpl.
  - destruct (SerialPort.portIsOpen sp); reflexivity.
  - rewrite bind_get. destruct (SerialPort.portIsOpen sp) eqn:Ho.
    + rewrite bind_emit, IH. rewrite ?Ho. reflexivity.
    + rewrite bind_ret, IH. rewrite ?Ho. reflexivity.
Qed.

End Reading.

(** X14.  [Read], called once for each buffered byte, returns the bytes in
    the order they were buffered, each with a nil error, and empties
    the buffer; the call after the last byte returns [io.EOF] and byte
    0 and leaves the buffer empty. *)
Theorem Read_in_order {T} (sp : SerialPort.t T) (data : list byte) :
  SerialPort.portIsOpen sp = true ->
  Buffer.unread (SerialPort.buff sp) = data ->
  times (length data) Read sp
  = (Ret (map (fun c => (c, None)) data),
     SerialPort.set_buff (Buffer.mk []) sp, []) /\
  Read (SerialPort.set_buff (Buffer.mk []) sp)
  = (Ret (x00, Some io_EOF), SerialPort.set_buff (Buffer.mk []) sp, []).
Proof.
  intros Ho Hb. split.
  - apply Read_all; assumption.
  - rewrite Read_empty; [reflexivity | exact Ho | reflexivity].
Qed.

Lemma Read_in_order_witness :
  times 3 Read (Sim.holding LF [x4f; x4b; LF])
  = (Ret [(x4f, None); (x4b, None); (LF, None)],
     SerialPort.set_buff (Buffer.mk []) (Sim.holding LF [x4f; x4b; LF]), []) /\
  Read (SerialPort.set_buff (Buffer.mk []) (Sim.holding LF [x4f; x4b; LF]))
  = (Ret (x00, Some io_EOF),
     SerialPort.set_buff (Buffer.mk []) (Sim.holding LF [x4f; x4b; LF]), []).
Proof.
  apply (@Read_in_order _ (Sim.holding LF [x4f; x4b; LF]) [x4f; x4b; LF]);
    reflexivity.
Defined.

(** X15.  One pass of the Reader Loop: whatever the transport's read
    returned, error or not, its bytes are appended to the serial buffer
    behind those already there, and each of them is handed to the
    per-byte channel, in order, if the port is open. *)
Theorem readSerialPort_pass_appends
    {T} {RWC : ReadWriteCloser T} (sp : SerialPort.t T) (t : T) :
  SerialPort.port sp = Some t ->
  let rx := firstn 256 (fst (fst (rwc_Read t 256))) in
  readSerialPort_pass sp
  = (Ret tt,
     SerialPort.set_buff (Buffer.mk (Buffer.unread (SerialPort.buff sp) ++ rx))
       (SerialPort.set_port (Some (snd (rwc_Read t 256))) sp),
     EvPortRead (fst (fst (rwc_Read t 256)))
     :: (if SerialPort.portIsOpen sp then map EvSend rx else [])).
Proof.
  intros Hp rx. unfold readSerialPort_pass, port_Read.
  unfold bind at 1. rewrite Hp.
  destruct (rwc_Read t 256) as [[data err] t'] eqn:Hr.
  simpl fst in *. simpl snd in *. cbv zeta.
  rewrite bind_modify, forward_run. reflexivity.
Qed.

Lemma readSerialPort_pass_appends_witness :
  let dev := SerialPort.set_port
               (Some (Sim.mkPort [] [[x4f; x4b; CR; LF]] false))
               (Sim.holding LF [x3e]) in
  Buffer.unread (SerialPort.buff (snd (fst (readSerialPort_pass dev))))
    = [x3e; x4f; x4b; CR; LF] /\
  sends (snd (readSerialPort_pass dev)) = [x4f; x4b; CR; LF].
Proof.
  intros dev.
  rewrite (@readSerialPort_pass_appends _ _ dev
             (Sim.mkPort [] [[x4f; x4b; CR; LF]] false) eq_refl).
  split; reflexivity.
Defined.

Lemma port_Read_run {T} {RWC : ReadWriteCloser T} (sp : SerialPort.t T) t n :
  SerialPort.port sp = Some t ->
  port_Read n sp
  = (Ret (fst (rwc_Read t n)),
     SerialPort.set_port (Some (snd (rwc_Read t n))) sp,
     [EvPortRead (fst (fst (rwc_Read t n)))]).
Proof.
  intros H. unfold port_Read. rewrite H.
  destruct (rwc_Read t n) as [r t']. reflexivity.
Qed.

(** X16.  A line that arrives in two parts is lost in part when [ReadLine]
    is called in between: with the first part buffered and no
    delimiter yet, [ReadLine] fails with [io.EOF] and takes the part
    off the buffer; after the Reader Loop has brought the rest of the
    line, [ReadLine] returns the rest alone. *)
Theorem ReadLine_loses_partial_line
    {T} {RWC : ReadWriteCloser T} (sp : SerialPort.t T) (t : T)
    (part1 part2 : list byte) :
  SerialPort.portIsOpen sp = true ->
  SerialPort.port sp = Some t ->
  Buffer.unread (SerialPort.buff sp) = part1 ->
  ~ In (SerialPort.eol sp) part1 ->
  fst (fst (rwc_Read t 256)) = part2 ++ [SerialPort.eol sp] ->
  length (part2 ++ [SerialPort.eol sp]) <= 256 ->
  ~ In (SerialPort.eol sp) part2 ->
  fst (fst (bind ReadLine
              (fun r1 => bind readSerialPort_pass
                 (fun _ => bind ReadLine (fun r2 => ret (r1, r2)))) sp))
  = Ret (([], Some io_EOF), (removeEOL (part2 ++ [SerialPort.eol sp]), None)).
Proof.
  intros Ho Hp Hb Hn1 Hr Hlen Hn2.
  erewrite bind_run by (apply ReadLine_incomplete; [exact Ho | rewrite Hb; exact Hn1]).
  rewrite prepend_nil.
  set (sp1 := SerialPort.set_buff (Buffer.mk []) sp).
  assert (Hpass :
            readSerialPort_pass sp1
            = (Ret tt,
               SerialPort.set_buff (Buffer.mk (part2 ++ [SerialPort.eol sp]))
                 (SerialPort.set_port (Some (snd (rwc_Read t 256))) sp1),
               EvPortRead (part2 ++ [SerialPort.eol sp])
               :: map EvSend (part2 ++ [SerialPort.eol sp]))).
  { unfold readSerialPort_pass.
    erewrite bind_run by (apply port_Read_run; exact Hp).
    destruct (rwc_Read t 256) as [[data err] t'].
    simpl in Hr. subst data. cbn [fst snd]. cbv beta iota zeta.
    rewrite firstn_all2 by exact Hlen.
    rewrite bind_modify, forward_run. simpl. rewrite Ho. reflexivity. }
  erewrite bind_run by exact Hpass.
  rewrite result_prepend.
  erewrite bind_run.
  2:{ apply ReadLine_line with (body := part2) (rest := []).
      - exact Ho.
      - reflexivity.
      - exact Hn2. }
  reflexivity.
Qed.

Lemma ReadLine_loses_partial_line_witness :
  let dev := SerialPort.set_port
               (Some (Sim.mkPort [] [[x4b; CR; LF]] false))
               (Sim.holding LF [x4f]) in
  fst (fst (bind ReadLine
              (fun r1 => bind readSerialPort_pass
                 (fun _ => bind ReadLine (fun r2 => ret (r1, r2)))) dev))
  = Ret (([], Some io_EOF), (removeEOL ([x4b; CR] ++ [LF]), None)).
Proof.
  intros dev.
  apply (@ReadLine_loses_partial_line _ _ dev
           (Sim.mkPort [] [[x4b; CR; LF]] false) [x4f] [x4b; CR]).
  - reflexivity.
  - reflexivity.
  - reflexivity.
  - simpl. intros [H|[]]. discriminate H.
  - reflexivity.
  - simpl. lia.
  - simpl. intros [H|[H|[]]]; discriminate H.
Defined.

(** X17.  With a delimiter that is neither newline nor carriage return,
    [ReadLine] takes the first line off the buffer, delimiter
    included, and returns its text without the carriage returns and
    newlines it held but with the delimiter still at its end. *)
Theorem ReadLine_returns_delimiter
    {T} (sp : SerialPort.t T) (body rest : list byte) :
  SerialPort.portIsOpen sp = true ->
  SerialPort.eol sp <> LF ->
  SerialPort.eol sp <> CR ->
  Buffer.unread (SerialPort.buff sp) = body ++ SerialPort.eol sp :: rest ->
  ~ In (SerialPort.eol sp) body ->
  ReadLine sp
  = (Ret (withoutCRLF body ++ [SerialPort.eol sp], None),
     SerialPort.set_buff (Buffer.mk rest) sp, []) /\
  last (withoutCRLF body ++ [SerialPort.eol sp]) x00 = SerialPort.eol sp /\
  length (withoutCRLF body ++ [SerialPort.eol sp]) <= length body + 1.
Proof.
  intros Ho Hlf Hcr Hb Hn. split; [|split].
  - erewrite ReadLine_line; [|exact Ho|exact Hb|exact Hn].
    rewrite removeEOL_line_other by assumption. reflexivity.
  - apply last_last.
  - rewrite length_app. simpl. unfold withoutCRLF.
    pose proof (filter_length_le keeps body). lia.
Qed.

Lemma ReadLine_returns_delimiter_witness :
  ReadLine (Sim.holding ";"%byte [x41; CR; x54; ";"%byte; x4f])
  = (Ret (withoutCRLF [x41; CR; x54] ++ [";"%byte], None),
     SerialPort.set_buff (Buffer.mk [x4f])
       (Sim.holding ";"%byte [x41; CR; x54; ";"%byte; x4f]), []).
Proof.
  apply (@ReadLine_returns_delimiter _
           (Sim.holding ";"%byte [x41; CR; x54; ";"%byte; x4f])
           [x41; CR; x54] [x4f]).
  - reflexivity.
  - discriminate.
  - discriminate.
  - reflexivity.
  - simpl. intros [H|[H|[H|[]]]]; discriminate H.
Defined.

(** X18.  [EOL] changes the delimiter for the bytes already buffered too:
    the next [ReadLine] cuts the buffer at the first byte equal to the
    new delimiter, whatever the delimiter was when the bytes came. *)
Theorem EOL_reframes_buffer
    {T} (sp : SerialPort.t T) (c : byte) (body rest : list byte) :
  SerialPort.portIsOpen sp = true ->
  Buffer.unread (SerialPort.buff sp) = body ++ c :: rest ->
  ~ In c body ->
  bind (EOL c) (fun _ => ReadLine) sp
  = (Ret (removeEOL (body ++ [c]), None),
     SerialPort.set_buff (Buffer.mk rest) (SerialPort.set_eol c sp), []).
Proof.
  intros Ho Hb Hn. unfold EOL. rewrite bind_modify.
  apply (@ReadLine_line _ (SerialPort.set_eol c sp) body rest).
  - exact Ho.
  - exact Hb.
  - exact Hn.
Qed.

Lemma EOL_reframes_buffer_witness :
  bind (EOL x3e) (fun _ => ReadLine) (Sim.holding LF [x4f; x4b; LF; x3e; x41])
  = (Ret (removeEOL ([x4f; x4b; LF] ++ [x3e]), None),
     SerialPort.set_buff (Buffer.mk [x41])
       (SerialPort.set_eol x3e (Sim.holding LF [x4f; x4b; LF; x3e; x41])), []).
Proof.
  apply (@EOL_reframes_buffer _ (Sim.holding LF [x4f; x4b; LF; x3e; x41]) x3e
           [x4f; x4b; LF] [x41]).
  - reflexivity.
  - reflexivity.
  - simpl. intros [H|[H|[H|[]]]]; discriminate H.
Defined.

(* ------------------------------------------------------------------ *)
(** ** The Line Framer and [removeEOL] *)

Section Framer.

Context {T : Type}.

Lemma framer_body (sp : SerialPort.t T) body :
  SerialPort.portIsOpen sp = true ->
  ~ In (SerialPort.eol sp) body ->
  forall rest acc,
    processSerialPort (body ++ rest) acc sp
    = processSerialPort rest (acc ++ body) sp.
Proof.
  intros Ho. induction body as [|b body IH]; intros Hn rest acc.
  - rewrite app_nil_r. reflexivity.
  - simpl. rewrite bind_get, Ho.
    destruct (byte_eqb_spec b (SerialPort.eol sp)) as [E|_].
    + exfalso. apply Hn. left. exact E.
    + rewrite IH by (intros H; apply Hn; right; exact H).
      rewrite <- app_assoc. reflexivity.
Qed.

Lemma framer_delimiter (sp : SerialPort.t T) rest acc :
  SerialPort.portIsOpen sp = true ->
  processSerialPort (SerialPort.eol sp :: rest) acc sp
  = prepend (if SerialPort.Verbose sp
             then [EvLog (prefix (SerialPort.logger sp)) "Rx << %s"
                     [ArgB (acc ++ [SerialPort.eol sp])]]
             else [])
      (processSerialPort rest [] sp).
Proof.
  intros Ho. simpl. rewrite bind_get, Ho, byte_eqb_refl, bind_log. reflexivity.
Qed.

End Framer.

(** X19.  The Line Framer on an open session, fed the bytes of some lines
    and of an unfinished one: it logs each line once, in order, with
    its delimiter, when [Verbose] is set, keeps the unfinished line as
    its accumulator, and leaves the session alone. *)
Theorem processSerialPort_frames
    {T} (sp : SerialPort.t T) (bodies : list (list byte)) (tail : list byte) :
  SerialPort.portIsOpen sp = true ->
  Forall (fun b => ~ In (SerialPort.eol sp) b) bodies ->
  ~ In (SerialPort.eol sp) tail ->
  processSerialPort (joined (SerialPort.eol sp) bodies tail) [] sp
  = (Ret tail, sp,
     if SerialPort.Verbose sp
     then map (fun b => EvLog (prefix (SerialPort.logger sp)) "Rx << %s"
                          [ArgB (b ++ [SerialPort.eol sp])]) bodies
     else []).
Proof.
  intros Ho Hb Ht. induction Hb as [|b bodies Hn _ IH].
  - unfold joined. simpl.
    rewrite <- (app_nil_r tail) at 1.
    rewrite framer_body by assumption. simpl.
    destruct (SerialPort.Verbose sp); reflexivity.
  - unfold joined in *. simpl. rewrite <- !app_assoc.
    rewrite framer_body by assumption. simpl app.
    rewrite framer_delimiter by assumption.
    rewrite IH. destruct (SerialPort.Verbose sp); reflexivity.
Qed.

Lemma processSerialPort_frames_witness :
  processSerialPort (joined (SerialPort.eol Sim.opened) [[x4f; x4b; CR]; []] [x3e])
    [] Sim.opened
  = (Ret [x3e], Sim.opened,
     if SerialPort.Verbose Sim.opened
     then map (fun b => EvLog (prefix (SerialPort.logger Sim.opened)) "Rx << %s"
                          [ArgB (b ++ [SerialPort.eol Sim.opened])])
            [[x4f; x4b; CR]; []]
     else []).
Proof.
  apply (@processSerialPort_frames _ Sim.opened [[x4f; x4b; CR]; []] [x3e]).
  - reflexivity.
  - repeat constructor; simpl; intros H;
      repeat (destruct H as [H|H]; [discriminate H|]); exact H.
  - simpl. intros [H|[]]. discriminate H.
Defined.

(** X20.  The text [removeEOL] returns holds no carriage return and no
    newline, and otherwise the bytes of the line, all of them and in
    their order; so cleaning twice is cleaning once, a text without the
    two bytes comes back as it is, and a text cleaned in two pieces is
    the text cleaned whole. *)
Theorem removeEOL_cleans (line more : list byte) :
  ~ In CR (removeEOL line) /\
  ~ In LF (removeEOL line) /\
  (forall b, In b (removeEOL line) <-> In b line /\ b <> CR /\ b <> LF) /\
  removeEOL (removeEOL line) = removeEOL line /\
  removeEOL (line ++ more) = removeEOL line ++ removeEOL more /\
  (~ In CR line -> ~ In LF line -> removeEOL line = line).
Proof.
  rewrite !removeEOL_filter. unfold withoutCRLF.
  assert (Hk : forall b, keeps b = true <-> b <> CR /\ b <> LF).
  { intros b. unfold keeps.
    destruct (byte_eqb_spec b CR), (byte_eqb_spec b LF); simpl;
      split; try discriminate; try tauto; intros [? ?]; contradiction. }
  split; [|split; [|split; [|split; [|split]]]].
  - intros H. apply filter_In in H. destruct H as [_ H].
    apply Hk in H. destruct H as [H _]. apply H. reflexivity.
  - intros H. apply filter_In in H. destruct H as [_ H].
    apply Hk in H. destruct H as [_ H]. apply H. reflexivity.
  - intros b. rewrite filter_In, Hk. tauto.
  - induction line as [|b line IH]; simpl; [reflexivity|].
    destruct (keeps b) eqn:E; simpl; [rewrite E, IH; reflexivity | exact IH].
  - apply filter_app.
  - intros Hcr Hlf. induction line as [|b line IH]; simpl; [reflexivity|].
    assert (E : keeps b = true).
    { apply Hk. split; intros ->; [apply Hcr | apply Hlf]; left; reflexivity. }
    rewrite E, IH; [reflexivity | |]; intros H; [apply Hcr | apply Hlf];
      right; exact H.
Qed.

Lemma removeEOL_cleans_witness :
  removeEOL [x4f; x4b] = [x4f; x4b].
Proof.
  apply (proj2 (proj2 (proj2 (proj2 (proj2 (removeEOL_cleans [x4f; x4b] [])))))).
  - simpl. intros [H|[H|[]]]; discriminate H.
  - simpl. intros [H|[H|[]]]; discriminate H.
Defined.

(* ------------------------------------------------------------------ *)
(** ** [posixTimeoutValues] *)

Open Scope Z_scope.

(** The two divisions of a positive timeout give its whole tenths of a
    second. *)
Lemma deciseconds (readTimeout : Duration) :
  0 < readTimeout ->
  let d := Z.quot (Z.quot readTimeout 1000000) 100 in
  0 <= d /\ d * 100000000 <= readTimeout < (d + 1) * 100000000.
Proof.
  intros Hpos d. subst d.
  rewrite Z.quot_quot by lia.
  rewrite Z.quot_div_nonneg by lia.
  change (1000000 * 100) with 100000000.
  pose proof (Z.div_mod readTimeout 100000000 ltac:(lia)) as Hdm.
  pose proof (Z.mod_pos_bound readTimeout 100000000 ltac:(lia)) as Hm.
  pose proof (Z.div_pos readTimeout 100000000 ltac:(lia) ltac:(lia)) as Hd.
  lia.
Qed.

Lemma posixTimeoutValues_timed (readTimeout : Duration) :
  0 < readTimeout ->
  posixTimeoutValues readTimeout
  = (0, Z.max 1 (Z.min 255 (Z.quot (Z.quot readTimeout 1000000) 100))).
Proof.
  intros Hpos. unfold posixTimeoutValues, MAXUINT8.
  apply Z.ltb_lt in Hpos as Hb. rewrite Hb. cbv zeta.
  destruct (deciseconds Hpos) as [Hd _].
  set (d := Z.quot (Z.quot readTimeout 1000000) 100) in *.
  destruct (Z.ltb_spec d 1).
  - rewrite Z.mod_small by lia. f_equal. lia.
  - destruct (Z.ltb_spec 255 d); rewrite Z.mod_small by lia; f_equal; lia.
Qed.

(** X21.  Without a timeout (zero or negative) the read blocks for one byte:
    VMIN 1 and VTIME 0.  With one, VMIN is 0 and VTIME is the timeout
    in whole tenths of a second, rounded down, but no less than 1 and
    no more than 255: anything under two tenths gives 1, anything from
    25.5 seconds on gives 255.  Both values fit a byte. *)
Theorem posixTimeoutValues_range (readTimeout : Duration) :
  (readTimeout <= 0 -> posixTimeoutValues readTimeout = (1, 0)) /\
  (0 < readTimeout ->
   fst (posixTimeoutValues readTimeout) = 0 /\
   1 <= snd (posixTimeoutValues readTimeout) <= 255 /\
   (readTimeout < 200000000 -> snd (posixTimeoutValues readTimeout) = 1) /\
   (100000000 <= readTimeout < 25600000000 ->
    snd (posixTimeoutValues readTimeout) * 100000000 <= readTimeout
    < (snd (posixTimeoutValues readTimeout) + 1) * 100000000) /\
   (25500000000 <= readTimeout -> snd (posixTimeoutValues readTimeout) = 255)).
Proof.
  split.
  - intros Hle. unfold posixTimeoutValues.
    destruct (Z.ltb_spec 0 readTimeout); [lia | reflexivity].
  - intros Hpos. rewrite (posixTimeoutValues_timed Hpos). simpl fst. simpl snd.
    destruct (deciseconds Hpos) as [Hd Hr].
    set (d := Z.quot (Z.quot readTimeout 1000000) 100) in *.
    repeat split; try lia.
Qed.

Lemma posixTimeoutValues_range_witness :
  posixTimeoutValues 0 = (1, 0) /\
  snd (posixTimeoutValues 5000000000) * 100000000 <= 5000000000
  < (snd (posixTimeoutValues 5000000000) + 1) * 100000000.
Proof.
  split.
  - apply (proj1 (posixTimeoutValues_range 0)). lia.
  - apply (proj2 (posixTimeoutValues_range 5000000000)); lia.
Defined.

(** X22.  A longer timeout never gives a shorter VTIME. *)
Theorem posixTimeoutValues_monotone (a b : Duration) :
  0 < a -> a <= b ->
  snd (posixTimeoutValues a) <= snd (posixTimeoutValues b).
Proof.
  intros Ha Hab. assert (Hb : 0 < b) by lia.
  rewrite (posixTimeoutValues_timed Ha), (posixTimeoutValues_timed Hb).
  simpl snd.
  destruct (deciseconds Ha) as [_ Hda]. destruct (deciseconds Hb) as [_ Hdb].
  set (da := Z.quot (Z.quot a 1000000) 100) in *.
  set (db := Z.quot (Z.quot b 1000000) 100) in *.
  lia.
Qed.

Lemma posixTimeoutValues_monotone_witness :
  snd (posixTimeoutValues 150000000) <= snd (posixTimeoutValues 30000000000).
Proof.
  apply (@posixTimeoutValues_monotone 150000000 30000000000); lia.
Defined.

Close Scope Z_scope.

(* ------------------------------------------------------------------ *)
(** ** Waiting for a pattern, under a schedule *)

Lemma sleeps_polls (sched : list (list byte)) :
  sleeps (map (fun _ => EvSleep 50) sched) = repeat 50 (length sched).
Proof. induction sched as [|a sched IH]; simpl; [|rewrite IH]; reflexivity. Qed.

Section Polling.

Context {T : Type} {RE : RegexpEngine}.

(** Polling while no delimiter comes: every pass fails to read a line
    and empties the buffer. *)
Lemma pollLoop_no_line (re : Regexp) (sched : list (list byte)) :
  forall sp : SerialPort.t T,
    SerialPort.portIsOpen sp = true ->
    ~ In (SerialPort.eol sp) (Buffer.unread (SerialPort.buff sp)) ->
    Forall (fun a => ~ In (SerialPort.eol sp) a) sched ->
    pollLoop re sched sp
    = (Ret None,
       match sched with
       | [] => sp
       | _ :: _ => SerialPort.set_buff (Buffer.mk []) sp
       end,
       map (fun _ => EvSleep 50) sched).
Proof.
  induction sched as [|a sched IH]; intros sp Ho Hn Hs.
  - reflexivity.
  - inversion Hs as [|? ? Ha Hs']; subst.
    simpl pollLoop. rewrite bind_emit, bind_modify.
    erewrite bind_run.
    2:{ apply ReadLine_incomplete; [exact Ho|].
        simpl. intros H. apply in_app_or in H. tauto. }
    rewrite prepend_nil. cbv beta iota.
    rewrite IH; [|exact Ho|simpl; tauto|exact Hs'].
    destruct sched; reflexivity.
Qed.

End Polling.

(** X23.  If no delimiter byte is buffered and none arrives before the
    timer fires, [WaitForRegexTimeout] returns the timeout error after
    one pause of 50 milliseconds for each pass of its polling loop,
    and, as soon as there was one pass, the bytes that were buffered or
    arrived meanwhile are gone from the serial buffer. *)
Theorem WaitForRegexTimeout_without_line
    {T} {RE : RegexpEngine} (sp : SerialPort.t T) (exp : string)
    (timeout : Duration) (sched : list (list byte)) (re : Regexp) :
  SerialPort.portIsOpen sp = true ->
  Compile exp = inl re ->
  ~ In (SerialPort.eol sp) (Buffer.unread (SerialPort.buff sp)) ->
  Forall (fun a => ~ In (SerialPort.eol sp) a) sched ->
  fst (fst (WaitForRegexTimeout exp timeout sched sp))
    = Ret ([], Some ErrTimeoutExpired) /\
  sleeps (snd (WaitForRegexTimeout exp timeout sched sp))
    = repeat 50 (length sched) /\
  (sched <> [] ->
   Buffer.unread (SerialPort.buff (snd (fst (WaitForRegexTimeout exp timeout sched sp))))
   = []).
Proof.
  intros Ho Hc Hn Hs. unfold WaitForRegexTimeout.
  rewrite bind_get, Ho, Hc, bind_emit, bind_log.
  erewrite bind_run by (apply pollLoop_no_line; assumption).
  cbv beta iota. rewrite bind_log.
  rewrite !result_prepend, !state_prepend, !events_prepend.
  split; [reflexivity|]. split.
  - rewrite !sleeps_app, !sleeps_log_line. simpl.
    rewrite app_nil_r. apply sleeps_polls.
  - intros Hne. destruct sched; [contradiction | reflexivity].
Qed.

Lemma WaitForRegexTimeout_without_line_witness :
  fst (fst (WaitForRegexTimeout "OK" 100000000%Z [[x4f]; [x4b]]
              (Sim.holding LF [x3e])))
    = Ret ([], Some ErrTimeoutExpired) /\
  sleeps (snd (WaitForRegexTimeout "OK" 100000000%Z [[x4f]; [x4b]]
                 (Sim.holding LF [x3e])))
    = repeat 50 (length [[x4f]; [x4b]]) /\
  ([[x4f]; [x4b]] <> [] ->
   Buffer.unread
     (SerialPort.buff
        (snd (fst (WaitForRegexTimeout "OK" 100000000%Z [[x4f]; [x4b]]
                     (Sim.holding LF [x3e])))))
   = []).
Proof.
  apply (@WaitForRegexTimeout_without_line _ Sim.regexp (Sim.holding LF [x3e]) "OK"
           100000000%Z [[x4f]; [x4b]] "OK"%string).
  - reflexivity.
  - reflexivity.
  - simpl. intros [H|[]]. discriminate H.
  - repeat constructor; simpl; intros [H|[]]; discriminate H.
Defined.

(** X24.  If at the first pass of the polling loop the serial buffer starts
    with a whole line, and the pattern matches in the line's text as
    [ReadLine] returns it, then [WaitForRegexTimeout] returns the first
    match with a nil error, after a single pause; the line is taken off
    the buffer and what follows it stays. *)
Theorem WaitForRegexTimeout_first_line
    {T} {RE : RegexpEngine} (sp : SerialPort.t T) (exp : string)
    (timeout : Duration) (arrived : list byte) (sched : list (list byte))
    (re : Regexp) (body rest r0 : list byte) (more : list (list byte)) :
  SerialPort.portIsOpen sp = true ->
  Compile exp = inl re ->
  Buffer.unread (SerialPort.buff sp) ++ arrived = body ++ SerialPort.eol sp :: rest ->
  ~ In (SerialPort.eol sp) body ->
  FindAllString re (removeEOL (body ++ [SerialPort.eol sp])) = r0 :: more ->
  fst (fst (WaitForRegexTimeout exp timeout (arrived :: sched) sp)) = Ret (r0, None) /\
  sleeps (snd (WaitForRegexTimeout exp timeout (arrived :: sched) sp)) = [50] /\
  Buffer.unread
    (SerialPort.buff (snd (fst (WaitForRegexTimeout exp timeout (arrived :: sched) sp))))
  = rest.
Proof.
  intros Ho Hc Hb Hn Hf. unfold WaitForRegexTimeout.
  rewrite bind_get, Ho, Hc, bind_emit, bind_log.
  erewrite bind_run.
  2:{ simpl pollLoop. rewrite bind_emit, bind_modify.
      erewrite bind_run.
      2:{ apply ReadLine_line with (body := body) (rest := rest);
            [exact Ho | exact Hb | exact Hn]. }
      rewrite prepend_nil. cbv beta iota.
      change (SerialPort.eol
                (SerialPort.set_buff
                   (Buffer.Write (SerialPort.buff sp) arrived) sp))
        with (SerialPort.eol sp).
      rewrite Hf. reflexivity. }
  cbv beta iota. rewrite !bind_log.
  rewrite !result_prepend, !state_prepend, !events_prepend.
  split; [reflexivity|]. split; [|reflexivity].
  rewrite !sleeps_app, !sleeps_log_line. reflexivity.
Qed.

Lemma WaitForRegexTimeout_first_line_witness :
  fst (fst (WaitForRegexTimeout "OK" 1000000000%Z [[x4b; CR; LF; x3e]]
              (Sim.holding LF [x4f])))
    = Ret ([x4f; x4b], None) /\
  sleeps (snd (WaitForRegexTimeout "OK" 1000000000%Z [[x4b; CR; LF; x3e]]
                 (Sim.holding LF [x4f])))
    = [50] /\
  Buffer.unread
    (SerialPort.buff
       (snd (fst (WaitForRegexTimeout "OK" 1000000000%Z [[x4b; CR; LF; x3e]]
                    (Sim.holding LF [x4f])))))
  = [x3e].
Proof.
  apply (@WaitForRegexTimeout_first_line _ Sim.regexp (Sim.holding LF [x4f]) "OK"
           1000000000%Z [x4b; CR; LF; x3e] [] "OK"%string
           [x4f; x4b; CR] [x3e] [x4f; x4b] []).
  - reflexivity.
  - reflexivity.
  - reflexivity.
  - simpl. intros [H|[H|[H|[]]]]; discriminate H.
  - reflexivity.
Defined.

(* ------------------------------------------------------------------ *)
(** ** With [Verbose] off *)

Lemma logged_app e1 e2 : logged (e1 ++ e2) = logged e1 ++ logged e2.
Proof. unfold logged. apply filter_app. Qed.

Section Quiet.

Context {T : Type} {RWC : ReadWriteCloser T} {PF : Platform T} {RE : RegexpEngine}.

Lemma quiet_ret A (a : A) : quiet (@ret T A a).
Proof. intros sp Hv. split; [reflexivity | exact Hv]. Qed.

Lemma quiet_get : quiet (@get T).
Proof. intros sp Hv. split; [reflexivity | exact Hv]. Qed.

Lemma quiet_throw A p : quiet (@throw T A p).
Proof. intros sp Hv. split; [reflexivity | exact Hv]. Qed.

Lemma quiet_outOfFuel A : quiet (@outOfFuel T A).
Proof. intros sp Hv. split; [reflexivity | exact Hv]. Qed.

Lemma quiet_modify (f : SerialPort.t T -> SerialPort.t T) :
  (forall sp, SerialPort.Verbose (f sp) = SerialPort.Verbose sp) ->
  quiet (modify f).
Proof. intros Hf sp Hv. split; [reflexivity | simpl; rewrite Hf; exact Hv]. Qed.

Lemma quiet_emit (e : Event) :
  logged [e] = [] -> quiet (@emit T e).
Proof. intros He sp Hv. split; [exact He | exact Hv]. Qed.

Lemma quiet_log format a : quiet (@log T format a).
Proof.
  intros sp Hv. rewrite log_run, Hv. split; [reflexivity | exact Hv].
Qed.

Lemma quiet_bind A B (m : @M T A) (k : A -> @M T B) :
  quiet m -> (forall a, quiet (k a)) -> quiet (bind m k).
Proof.
  intros Hm Hk sp Hv. destruct (Hm sp Hv) as [Hl Hs]. unfold bind.
  destruct (m sp) as [[[a| |] sp1] ev1]; simpl in Hl, Hs.
  - destruct (Hk a sp1 Hs) as [Hl2 Hs2].
    rewrite events_prepend, state_prepend, logged_app, Hl, Hl2.
    split; [reflexivity | exact Hs2].
  - split; assumption.
  - split; assumption.
Qed.

Lemma quiet_port_Write d : quiet (port_Write d).
Proof.
  intros sp Hv. unfold port_Write.
  destruct (SerialPort.port sp) as [t|]; [|split; [reflexivity | exact Hv]].
  destruct (rwc_Write t d). split; [reflexivity | exact Hv].
Qed.

Lemma quiet_port_Read n : quiet (port_Read n).
Proof.
  intros sp Hv. unfold port_Read.
  destruct (SerialPort.port sp) as [t|]; [|split; [reflexivity | exact Hv]].
  destruct (rwc_Read t n). split; [reflexivity | exact Hv].
Qed.

Lemma quiet_port_Close : quiet port_Close.
Proof.
  intros sp Hv. unfold port_Close.
  destruct (SerialPort.port sp) as [t|]; [|split; [reflexivity | exact Hv]].
  destruct (rwc_Close t). split; [reflexivity | exact Hv].
Qed.

Lemma quiet_index A (o : option A) : quiet (@index T A o).
Proof. destruct o; [apply quiet_ret | apply quiet_throw]. Qed.

(** Quietness of a computation built from the pieces above. *)
Ltac quiet_step :=
  first
    [ apply quiet_ret | apply quiet_get | apply quiet_throw
    | apply quiet_outOfFuel | apply quiet_log | apply quiet_index
    | apply quiet_port_Write | apply quiet_port_Read | apply quiet_port_Close
    | apply quiet_emit; reflexivity
    | apply quiet_modify; intros; reflexivity
    | apply quiet_bind; [|intros]
    | match goal with
      | |- quiet (if ?b then _ else _) => destruct b
      | |- quiet (match ?x with _ => _ end) => destruct x
      | |- quiet (let _ := _ in _) => cbv zeta
      end ].

Ltac quiet_all := repeat quiet_step.

Lemma quiet_Open name baud databits timeout parity stopbit :
  quiet (Open name baud databits timeout parity stopbit).
Proof. unfold Open. quiet_all. Qed.

Lemma quiet_Close : quiet Close.
Proof. unfold Close, close_rxChar. quiet_all. Qed.

Lemma quiet_Write data : quiet (Write data).
Proof. unfold Write. quiet_all. Qed.

Lemma quiet_Print str : quiet (Print str).
Proof. unfold Print. quiet_all. Qed.

Lemma quiet_ReadLine : quiet (@ReadLine T).
Proof. unfold ReadLine. quiet_all. Qed.

Lemma quiet_sendLoop fuel (file : list byte) :
  forall n, quiet (sendLoop fuel file n).
Proof.
  induction fuel as [|fuel IH]; intros n; simpl.
  - quiet_all.
  - destruct (n <=? length file); [|apply quiet_ret].
    quiet_all. apply IH.
Qed.

Lemma quiet_SendFile filepath : quiet (SendFile filepath).
Proof. unfold SendFile. quiet_all. apply quiet_sendLoop. Qed.

Lemma quiet_pollLoop (re : Regexp) sched : quiet (@pollLoop T RE re sched).
Proof.
  induction sched as [|a sched IH]; simpl.
  - apply quiet_ret.
  - apply quiet_bind; [quiet_all|intros].
    apply quiet_bind; [quiet_all|intros].
    apply quiet_bind; [apply quiet_ReadLine|intros [line [e|]]].
    + exact IH.
    + destruct (FindAllString re line); [exact IH | apply quiet_ret].
Qed.

Lemma quiet_WaitForRegexTimeout exp timeout sched :
  quiet (@WaitForRegexTimeout T RE exp timeout sched).
Proof.
  unfold WaitForRegexTimeout.
  apply quiet_bind; [apply quiet_get|intros sp].
  destruct (SerialPort.portIsOpen sp); [|apply quiet_ret].
  destruct (Compile exp); [|apply quiet_throw].
  apply quiet_bind; [quiet_all|intros].
  apply quiet_bind; [quiet_all|intros].
  apply quiet_bind; [apply quiet_pollLoop|intros [found|]]; quiet_all.
Qed.

Lemma quiet_processSerialPort rx :
  forall acc, quiet (@processSerialPort T rx acc).
Proof.
  induction rx as [|b rx IH]; intros acc; simpl.
  - apply quiet_ret.
  - apply quiet_bind; [apply quiet_get|intros sp].
    destruct (SerialPort.portIsOpen sp); [|apply quiet_ret].
    destruct (Byte.eqb b (SerialPort.eol sp)).
    + apply quiet_bind; [apply quiet_log|intros]. apply IH.
    + apply IH.
Qed.

End Quiet.

(** X25.  With [Verbose] off nothing is logged: not by [Open], [Close],
    [Write], [Print], [SendFile], [WaitForRegexTimeout] nor by the Line
    Framer, whatever their arguments and however they end; and [Open]
    and [Close] leave [Verbose] off. *)
Theorem Verbose_off_logs_nothing
    {T} {RWC : ReadWriteCloser T} {PF : Platform T} {RE : RegexpEngine}
    (sp : SerialPort.t T) (name : string) (baud : Z)
    (databits timeout parity stopbit str filepath exp : string)
    (data rx : list byte) (d : Duration) (sched : list (list byte)) :
  SerialPort.Verbose sp = false ->
  logged (snd (Open name baud databits timeout parity stopbit sp)) = [] /\
  SerialPort.Verbose (snd (fst (Open name baud databits timeout parity stopbit sp)))
    = false /\
  logged (snd (Close sp)) = [] /\
  SerialPort.Verbose (snd (fst (Close sp))) = false /\
  logged (snd (Write data sp)) = [] /\
  logged (snd (Print str sp)) = [] /\
  logged (snd (SendFile filepath sp)) = [] /\
  logged (snd (WaitForRegexTimeout exp d sched sp)) = [] /\
  logged (snd (processSerialPort rx [] sp)) = [].
Proof.
  intros Hv.
  split; [apply (quiet_Open _ _ _ _ _ _ sp Hv)|].
  split; [apply (quiet_Open _ _ _ _ _ _ sp Hv)|].
  split; [apply (quiet_Close sp Hv)|].
  split; [apply (quiet_Close sp Hv)|].
  split; [apply (quiet_Write _ sp Hv)|].
  split; [apply (quiet_Print _ sp Hv)|].
  split; [apply (quiet_SendFile _ sp Hv)|].
  split; [apply (quiet_WaitForRegexTimeout _ _ _ sp Hv)|].
  apply (quiet_processSerialPort _ _ sp Hv).
Qed.

Lemma Verbose_off_logs_nothing_witness :
  let mute := SerialPort.mk (@None Sim.Port) EmptyString 0%Z LF ChanNil
                (Buffer.mk []) (mkLogger "PREFIX: ") false false in
  logged (snd (Open "COM1" 9600 "8" EmptyString "N" "1" mute)) = [] /\
  logged (snd (SendFile "abc.bin"
                 (snd (fst (Open "COM1" 9600 "8" EmptyString "N" "1" mute)))))
    = [].
Proof.
  intros mute. split.
  - apply (@Verbose_off_logs_nothing _ _ _ Sim.regexp mute "COM1" 9600 "8"
             EmptyString "N" "1" EmptyString "abc.bin" "OK" [] [] 0%Z []).
    reflexivity.
  - apply (@Verbose_off_logs_nothing _ _ _ Sim.regexp
             (snd (fst (Open "COM1" 9600 "8" EmptyString "N" "1" mute)))
             "COM1" 9600 "8" EmptyString "N" "1" EmptyString "abc.bin" "OK"
             [] [] 0%Z []).
    reflexivity.
Defined.
